(** * reddit_listener: the streaming engine and its GUI worker

    A shallow embedding of [src/modules/reddit_listener.py] and
    [src/modules/gui.py].  The generator [stream_reddit_activity] and the
    thread body [reddit_monitor_worker] are small-step machines: every step
    runs the statements up to the next call that leaves the program (a PRAW
    call, [time.sleep], a read of [self.running]) and consumes one [tick],
    which says what the outside world did at that moment. *)

From Stdlib Require Import List String Ascii ZArith QArith Bool Lia.
From Stdlib Require Import DecimalString.
Import ListNotations.

Local Open Scope string_scope.
Local Open Scope list_scope.

(** ** Exceptions *)

Module Exn.

(** The exception classes the two modules name, and a few siblings, with
    the base class each one is declared with (Python builtins and
    [prawcore.exceptions]). *)
Inductive cls : Type :=
| BaseException | SystemExit | KeyboardInterrupt | Exception
| ValueError | RuntimeError
| PrawcoreException | OAuthException | RequestException | ResponseException
| BadJSON | BadRequest | Forbidden | InvalidToken | NotFound
| ServerError | TooManyRequests.

Definition cls_eqb (a b : cls) : bool :=
  match a, b with
  | BaseException, BaseException | SystemExit, SystemExit
  | KeyboardInterrupt, KeyboardInterrupt | Exception, Exception
  | ValueError, ValueError | RuntimeError, RuntimeError
  | PrawcoreException, PrawcoreException | OAuthException, OAuthException
  | RequestException, RequestException
  | ResponseException, ResponseException
  | BadJSON, BadJSON | BadRequest, BadRequest | Forbidden, Forbidden
  | InvalidToken, InvalidToken | NotFound, NotFound
  | ServerError, ServerError | TooManyRequests, TooManyRequests => true
  | _, _ => false
  end.

Definition base (c : cls) : option cls :=
  match c with
  | BaseException => None
  | SystemExit | KeyboardInterrupt | Exception => Some BaseException
  | ValueError | RuntimeError | PrawcoreException => Some Exception
  | OAuthException | RequestException | ResponseException =>
      Some PrawcoreException
  | BadJSON | BadRequest | Forbidden | InvalidToken | NotFound
  | ServerError | TooManyRequests => Some ResponseException
  end.

(** [issubclass c d]: [d] is [c] or one of its ancestors.  No chain of
    bases is longer than four. *)
Fixpoint issubclass_upto (n : nat) (c d : cls) : bool :=
  cls_eqb c d ||
  match n with
  | O => false
  | S n' =>
      match base c with
      | Some p => issubclass_upto n' p d
      | None => false
      end
  end.

Definition issubclass : cls -> cls -> bool := issubclass_upto 4.

(** A raised exception: its class and [str(e)]. *)
Record exn : Type := Raise { exn_cls : cls; exn_str : string }.

Definition isinstance (e : exn) (c : cls) : bool := issubclass (exn_cls e) c.

(** [except (c1, c2, ...) as e] matches when [e] is an instance of one of
    the listed classes. *)
Definition matches (e : exn) (cs : list cls) : bool :=
  existsb (isinstance e) cs.

End Exn.

Import Exn.

(** ** Items, effects and the outside world *)

(** What a stream hands out.  [Submission] and [Comment] carry the three
    attributes the program reads: [subreddit.display_name], [title] or
    [body], and [permalink]. *)
Inductive item : Type :=
| Submission (display_name title permalink : string)
| Comment (display_name body permalink : string)
| OtherItem.

Inductive level : Type := INFO | WARNING | ERROR.

(** The credentials [initialize_reddit] reads with [os.getenv]; a variable
    that is not set reads as [None]. *)
Record credentials : Type := {
  client_id : option string;
  client_secret : option string;
  user_agent : option string;
  username : option string;
  password : option string
}.

(** Calls into PRAW. *)
Inductive call : Type :=
| PrawReddit (c : credentials)     (* praw.Reddit(...) *)
| UserMe                           (* reddit.user.me() *)
| RedditSubreddit (name : string)  (* reddit.subreddit(subreddit_string) *)
| StreamSubmissions                (* subreddit.stream.submissions(...) *)
| StreamComments                   (* subreddit.stream.comments(...) *)
| NextSubmission                   (* next(submissions_stream) *)
| NextComment.                     (* next(comments_stream) *)

(** The yield statement an item left the generator through: line 112 (the
    submissions loop) or line 117 (the comments loop). *)
Inductive source : Type := FromSubmissions | FromComments.

(** Observable effects, in program order. *)
Inductive event : Type :=
| Log (l : level) (message : string)   (* logger.info / warning / error *)
| Sleep (seconds : Q)                  (* time.sleep *)
| Extern (c : call)
| Yield (src : source) (x : item)
| Poll (running : bool)                (* the worker reads self.running *)
| Put (message : string).              (* self.message_queue.put *)

(** What the outside world does while one step runs: the PRAW call of the
    step fails with [fault] (if any); [me] is how the account returned by
    [reddit.user.me()] prints; [new_submissions] and [new_comments] are the
    items that appeared on Reddit since the previous step. *)
Record tick : Type := {
  fault : option exn;
  me : string;
  new_submissions : list item;
  new_comments : list item
}.

Definition quiet : tick :=
  {| fault := None; me := "None"; new_submissions := []; new_comments := [] |}.

Definition failing (e : exn) : tick :=
  {| fault := Some e; me := "None"; new_submissions := []; new_comments := [] |}.

Definition arriving (subs coms : list item) : tick :=
  {| fault := None; me := "None";
     new_submissions := subs; new_comments := coms |}.

(** ** reddit_listener.py *)

Module Listener.

(** *** initialize_reddit *)

Definition required_env_vars : list string :=
  [ "REDDIT_CLIENT_ID"; "REDDIT_CLIENT_SECRET"; "REDDIT_USER_AGENT";
    "REDDIT_USERNAME"; "REDDIT_PASSWORD" ].

(** The process environment after [load_dotenv()], as [os.getenv] sees it. *)
Definition environ : Type := string -> option string.

(** The classes of the [except] clause around [reddit.user.me()]. *)
Definition verification_errors : list cls :=
  [ OAuthException; InvalidToken; Forbidden; BadRequest;
    ResponseException; RequestException; ServerError ].

Inductive outcome (A : Type) : Type :=
| Returns (a : A)
| Raises (e : exn).
Arguments Returns {A} a.
Arguments Raises {A} e.

(** The client is known by the credentials it was built with. *)
Definition reddit_client : Type := credentials.

Definition getenv_credentials (env : environ) : credentials :=
  {| client_id := env "REDDIT_CLIENT_ID";
     client_secret := env "REDDIT_CLIENT_SECRET";
     user_agent := env "REDDIT_USER_AGENT";
     username := env "REDDIT_USERNAME";
     password := env "REDDIT_PASSWORD" |}.

(** Lines 38-73.  [t_ctor] is the world during [praw.Reddit(...)],
    [t_me] during [reddit.user.me()].  [required_env_vars] is assigned on
    line 40 and never read. *)
Definition initialize_reddit (env : environ) (t_ctor t_me : tick)
  : list event * outcome reddit_client :=
  let _ := required_env_vars in
  let creds := getenv_credentials env in
  let ev1 := [ Log INFO "Authenticating with Reddit...";
               Extern (PrawReddit creds) ] in
  match fault t_ctor with
  | Some e => (ev1, Raises e)
  | None =>
      let reddit := creds in
      let ev2 := ev1 ++ [ Extern UserMe ] in
      match fault t_me with
      | None =>
          (ev2 ++ [ Log INFO ("Authentication successful. Logged in as "
                              ++ me t_me) ],
           Returns reddit)
      | Some e =>
          if matches e verification_errors then
            (ev2, Raises (Raise RuntimeError
                   ("Failed to verify Reddit authentication: " ++ exn_str e)))
          else (ev2, Raises e)
      end
  end.

(** *** stream_reddit_activity *)

(** [str.strip()] on the characters a [string] here can hold: the ASCII
    whitespace, that is codes 9-13 and 28-32. *)
Definition is_space (c : ascii) : bool :=
  let n := nat_of_ascii c in
  ((9 <=? n) && (n <=? 13) || (28 <=? n) && (n <=? 32))%nat.

Fixpoint lstrip (s : string) : string :=
  match s with
  | EmptyString => EmptyString
  | String c r => if is_space c then lstrip r else s
  end.

Fixpoint rstrip (s : string) : string :=
  match s with
  | EmptyString => EmptyString
  | String c r =>
      match rstrip r with
      | EmptyString => if is_space c then EmptyString else String c EmptyString
      | r' => String c r'
      end
  end.

Definition strip (s : string) : string := rstrip (lstrip s).

(** An integer inside an f-string. *)
Definition str_int (z : Z) : string := NilZero.string_of_int (Z.to_int z).

Definition dquote : string := String (ascii_of_nat 34) EmptyString.

Definition max_backoff_seconds : Z := 120.

(** [int(x)] on a float: truncation toward zero.  The floats of this
    program are [n * 1.5] for an integer [0 <= n <= 120], which binary
    floating point holds exactly, so rationals stand for them. *)
Definition py_int (x : Q) : Z := Z.quot (Qnum x) (Z.pos (Qden x)).

(** Line 140. *)
Definition sleep_for_of (backoff_seconds : Z) : Z :=
  Z.min max_backoff_seconds (py_int (inject_Z backoff_seconds * (3 # 2))).

(** Line 143. *)
Definition next_backoff (sleep_for : Z) : Z :=
  Z.min max_backoff_seconds (sleep_for * 2).

(** The local variables of the generator.  A stream opened with
    [skip_existing=True, pause_after=0] is the queue of items that appeared
    after it was opened and that it has not handed out yet: [next] pops the
    head, or returns [None] when the queue is empty. *)
Record frame : Type := {
  subreddit_string : string;
  backoff_seconds : Z;
  submissions_stream : list item;
  comments_stream : list item
}.

Definition set_backoff (b : Z) (f : frame) : frame :=
  {| subreddit_string := subreddit_string f; backoff_seconds := b;
     submissions_stream := submissions_stream f;
     comments_stream := comments_stream f |}.

Definition set_submissions (l : list item) (f : frame) : frame :=
  {| subreddit_string := subreddit_string f;
     backoff_seconds := backoff_seconds f;
     submissions_stream := l; comments_stream := comments_stream f |}.

Definition set_comments (l : list item) (f : frame) : frame :=
  {| subreddit_string := subreddit_string f;
     backoff_seconds := backoff_seconds f;
     submissions_stream := submissions_stream f; comments_stream := l |}.

(** New items reach the streams that are open. *)
Definition receive_submissions (t : tick) (f : frame) : frame :=
  set_submissions (submissions_stream f ++ new_submissions t) f.

Definition receive (t : tick) (f : frame) : frame :=
  set_comments (comments_stream f ++ new_comments t)
    (receive_submissions t f).

(** Where the generator stands inside the outer [while True]. *)
Inductive pc : Type :=
| AtConnect            (* line 97: about to open the submissions stream *)
| AtConnect2           (* line 102: about to open the comments stream *)
| AtSubmissions        (* line 109: about to call next(submissions_stream) *)
| AtComments           (* line 114: about to call next(comments_stream) *)
| AtIdle               (* line 120 *)
| AtExcept (e : exn).  (* [e] was raised inside the try block *)

Inductive gstate : Type :=
| GStart (reddit : reddit_client) (sub_reddits : list string)
| GRun (p : pc) (f : frame)
| GDone (e : exn).     (* the generator ended by raising [e] *)

(** What a step hands to whoever called [next] on the generator. *)
Inductive signal : Type :=
| Silent
| Yields (x : item)
| Raised (e : exn).

Inductive verdict : Type :=
| Reraise              (* [raise], or no clause took the exception *)
| Retry (backoff : Z). (* fall out of the try statement, loop again *)

(** Lines 122-147: the except clauses, tried in order. *)
Definition handle (name : string) (backoff : Z) (e : exn)
  : list event * verdict :=
  if isinstance e KeyboardInterrupt then
    ([ Log INFO "Stream interrupted by user. Shutting down." ], Reraise)
  else if matches e [ Forbidden; NotFound ] then
    ([ Log ERROR ("Access issue for subreddits " ++ dquote ++ name ++ dquote
                  ++ ": " ++ exn_str e ++ ". Stopping stream.") ], Reraise)
  else if matches e [ OAuthException; InvalidToken ] then
    ([ Log ERROR ("Authentication error while streaming: " ++ exn_str e
                  ++ ". Stopping stream.") ], Reraise)
  else if matches e [ RequestException; ResponseException; ServerError ] then
    let sleep_for := sleep_for_of backoff in
    ([ Log WARNING ("Error streaming from Reddit: " ++ exn_str e);
       Log INFO ("Reconnecting in " ++ str_int sleep_for ++ " seconds...");
       Sleep (inject_Z sleep_for) ],
     Retry (next_backoff sleep_for))
  else if isinstance e Exception then
    ([ Log ERROR ("Unexpected error: " ++ exn_str e);
       Log INFO "Reconnecting in 15 seconds...";
       Sleep (inject_Z 15) ],
     Retry backoff)
  else ([], Reraise).

(** The five except clauses, by what they are for. *)
Inductive kind : Type :=
| Interrupt | Access | Authorization | Transient | Unknown.

(** The clause that takes [e]: the first one [e] is an instance of, or
    none when [e] is neither a KeyboardInterrupt nor an Exception. *)
Definition classify (e : exn) : option kind :=
  if isinstance e KeyboardInterrupt then Some Interrupt
  else if matches e [ Forbidden; NotFound ] then Some Access
  else if matches e [ OAuthException; InvalidToken ] then Some Authorization
  else if matches e [ RequestException; ResponseException; ServerError ]
  then Some Transient
  else if isinstance e Exception then Some Unknown
  else None.

(** One step of the generator.  A PRAW call that fails inside the try
    block leads to [AtExcept]; the step after it runs the handler, sleep
    included.  The fault of a tick is the fault of the PRAW call of the
    step: a step that only sleeps takes none, so an interrupt that arrives
    during [time.sleep], or at a yield, is outside this machine. *)
Definition gen_step (t : tick) (g : gstate) : list event * signal * gstate :=
  match g with
  | GStart reddit sub_reddits =>
      let name := String.concat "+" (map strip sub_reddits) in
      match fault t with
      | Some e => ([ Extern (RedditSubreddit name) ], Raised e, GDone e)
      | None =>
          ([ Extern (RedditSubreddit name) ], Silent,
           GRun AtConnect
             {| subreddit_string := name; backoff_seconds := 5;
                submissions_stream := []; comments_stream := [] |})
      end
  | GRun AtConnect f =>
      let evs := [ Log INFO ("Starting stream from subreddits: "
                             ++ subreddit_string f);
                   Extern StreamSubmissions ] in
      match fault t with
      | Some e => (evs, Silent, GRun (AtExcept e) f)
      | None => (evs, Silent, GRun AtConnect2 (set_submissions [] f))
      end
  | GRun AtConnect2 f =>
      let f := receive_submissions t f in
      match fault t with
      | Some e => ([ Extern StreamComments ], Silent, GRun (AtExcept e) f)
      | None =>
          ([ Extern StreamComments ], Silent,
           GRun AtSubmissions (set_backoff 5 (set_comments [] f)))
      end
  | GRun AtSubmissions f =>
      let f := receive t f in
      match fault t with
      | Some e => ([ Extern NextSubmission ], Silent, GRun (AtExcept e) f)
      | None =>
          match submissions_stream f with
          | [] => ([ Extern NextSubmission ], Silent, GRun AtComments f)
          | submission :: rest =>
              ([ Extern NextSubmission; Yield FromSubmissions submission ],
               Yields submission,
               GRun AtSubmissions (set_submissions rest f))
          end
      end
  | GRun AtComments f =>
      let f := receive t f in
      match fault t with
      | Some e => ([ Extern NextComment ], Silent, GRun (AtExcept e) f)
      | None =>
          match comments_stream f with
          | [] => ([ Extern NextComment ], Silent, GRun AtIdle f)
          | comment :: rest =>
              ([ Extern NextComment; Yield FromComments comment ],
               Yields comment,
               GRun AtComments (set_comments rest f))
          end
      end
  | GRun AtIdle f =>
      ([ Sleep (1 # 2) ], Silent, GRun AtSubmissions (receive t f))
  | GRun (AtExcept e) f =>
      match handle (subreddit_string f) (backoff_seconds f) e with
      | (evs, Reraise) => (evs, Raised e, GDone e)
      | (evs, Retry b) => (evs, Silent, GRun AtConnect (set_backoff b f))
      end
  | GDone e => ([], Silent, GDone e)
  end.

(** The generator under a consumer that takes every item and asks for the
    next one, like the loop of the [__main__] block: one step per tick. *)
Fixpoint drive (ts : list tick) (g : gstate) : list event * gstate :=
  match ts with
  | [] => ([], g)
  | t :: ts' =>
      let '(evs, _, g') := gen_step t g in
      let '(evs', g'') := drive ts' g' in
      (evs ++ evs', g'')
  end.

(** The generator once line 95 has run. *)
Definition connecting (name : string) (backoff : Z) : gstate :=
  GRun AtConnect
    {| subreddit_string := name; backoff_seconds := backoff;
       submissions_stream := []; comments_stream := [] |}.

(** Projections of a list of effects. *)
Definition sleeps (evs : list event) : list Q :=
  flat_map (fun ev => match ev with Sleep d => [d] | _ => [] end) evs.

Definition yields (s : source) (evs : list event) : list item :=
  flat_map (fun ev =>
    match ev, s with
    | Yield FromSubmissions x, FromSubmissions => [x]
    | Yield FromComments x, FromComments => [x]
    | _, _ => []
    end) evs.

(** Calls that reach the network among a list of effects. *)
Definition is_network_call (ev : event) : bool :=
  match ev with
  | Extern UserMe | Extern NextSubmission | Extern NextComment => true
  | _ => false
  end.

Definition network_calls (evs : list event) : nat :=
  List.length (filter is_network_call evs).

End Listener.

Import Listener.

(** ** gui.py *)

Module Gui.

Definition nl : string := String (ascii_of_nat 10) EmptyString.

Definition starting_message : string := "Starting Reddit monitor." ++ nl.
Definition connected_message : string := "Connection successful." ++ nl.
Definition stopping_message : string := "Stopping Reddit monitor." ++ nl.
Definition error_message (e : exn) : string := "Error: " ++ exn_str e ++ nl.

Definition monitored_subreddits : list string :=
  [ "smallbusiness"; "learnpython" ].

(** Lines 107-120: the text for an item, or nothing ([continue]). *)
Definition format_item (x : item) : option string :=
  match x with
  | Submission display_name title permalink =>
      Some ("New Post in r/" ++ display_name ++ ":" ++ nl
            ++ "  Title: " ++ title ++ nl
            ++ "  URL: https://www.reddit.com" ++ permalink ++ nl)%string
  | Comment display_name body permalink =>
      Some ("New Comment in r/" ++ display_name ++ ":" ++ nl
            ++ "  Comment: " ++ substring 0 80 body ++ "..." ++ nl
            ++ "  URL: https://www.reddit.com" ++ permalink ++ nl)%string
  | OtherItem => None
  end.

(** How [reddit_monitor_worker] left its try statement. *)
Inductive exit : Type :=
| Stopped              (* [break]: [self.running] was read as False *)
| Failed (e : exn)     (* [except Exception as e] took [e] *)
| Crashed (e : exn).   (* [e] is no [Exception]: it leaves the thread *)

Inductive wstate : Type :=
| WStart                           (* line 97 *)
| WInit (t_ctor : tick)            (* line 98, inside initialize_reddit *)
| WStream (g : gstate)             (* line 103: next() on the generator *)
| WCheck (g : gstate) (x : item)   (* line 104 *)
| WDone (how : exit).

(** Lines 122-125: the except clause, when it applies, then finally. *)
Definition leave (how : exit) : list event * wstate :=
  (match how with
   | Failed e => [ Put (error_message e) ]
   | _ => []
   end ++ [ Put stopping_message ],
   WDone how).

Definition raise (e : exn) : list event * wstate :=
  if isinstance e Exception then leave (Failed e) else leave (Crashed e).

Definition prepend (evs : list event) (r : list event * wstate)
  : list event * wstate := (evs ++ fst r, snd r).

(** One step of the thread.  [running] is the value of [self.running] at
    that moment; only the step at line 104 reads it.  The first step
    records the world during [praw.Reddit(...)], the second one runs
    [initialize_reddit] to its end. *)
Definition worker_step (env : environ) (running : bool) (t : tick)
    (w : wstate) : list event * wstate :=
  match w with
  | WStart => ([ Put starting_message ], WInit t)
  | WInit t_ctor =>
      match initialize_reddit env t_ctor t with
      | (evs, Returns reddit_instance) =>
          (evs ++ [ Put connected_message ],
           WStream (GStart reddit_instance monitored_subreddits))
      | (evs, Raises e) => prepend evs (raise e)
      end
  | WStream g =>
      match gen_step t g with
      | (evs, Silent, g') => (evs, WStream g')
      | (evs, Yields x, g') => (evs, WCheck g' x)
      | (evs, Raised e, _) => prepend evs (raise e)
      end
  | WCheck g x =>
      if negb running then prepend [ Poll running ] (leave Stopped)
      else
        match format_item x with
        | Some msg => ([ Poll running; Put msg ], WStream g)
        | None => ([ Poll running ], WStream g)
        end
  | WDone how => ([], WDone how)
  end.

(** A thread run against a schedule: at each step the flag as the GUI
    thread left it, and the world. *)
Fixpoint work (env : environ) (sched : list (bool * tick)) (w : wstate)
  : list event * wstate :=
  match sched with
  | [] => ([], w)
  | (running, t) :: sched' =>
      let '(evs, w') := worker_step env running t w in
      let '(evs', w'') := work env sched' w' in
      (evs ++ evs', w'')
  end.

Definition puts (evs : list event) : list string :=
  flat_map (fun ev => match ev with Put m => [m] | _ => [] end) evs.

Definition polls (evs : list event) : list bool :=
  flat_map (fun ev => match ev with Poll b => [b] | _ => [] end) evs.

Definition is_item_message (m : string) : bool :=
  prefix "New Post in r/" m || prefix "New Comment in r/" m.

(** *** The App object *)

Inductive widget_state : Type := NORMAL | DISABLED.

Record App : Type := {
  running : bool;
  start_button : widget_state;
  stop_button : widget_state;
  log_area : list string;        (* texts inserted at tk.END, in order *)
  message_queue : list string;   (* queue.Queue, oldest first *)
  monitor_thread : option nat
}.

(** The App together with the threads it has started. *)
Record system : Type := {
  app : App;
  threads : list wstate
}.

Definition log (message : string) (a : App) : App :=
  {| running := running a; start_button := start_button a;
     stop_button := stop_button a;
     log_area := log_area a ++ [ message ];
     message_queue := message_queue a;
     monitor_thread := monitor_thread a |}.

(** Lines 78-88, without the timer that calls it again. *)
Definition check_queue (a : App) : App :=
  {| running := running a; start_button := start_button a;
     stop_button := stop_button a;
     log_area := log_area a ++ message_queue a;
     message_queue := [];
     monitor_thread := monitor_thread a |}.

(** Lines 14-41. *)
Definition init : system :=
  {| app := {| running := false; start_button := NORMAL;
               stop_button := DISABLED; log_area := [];
               message_queue := []; monitor_thread := None |};
     threads := [] |}.

(** Lines 43-55. *)
Definition start_monitoring (s : system) : system :=
  {| app := {| running := true; start_button := DISABLED;
               stop_button := NORMAL; log_area := log_area (app s);
               message_queue := message_queue (app s);
               monitor_thread := Some (List.length (threads s)) |};
     threads := threads s ++ [ WStart ] |}.

(** Lines 58-66. *)
Definition stop_monitoring (s : system) : system :=
  {| app := log stopping_message
              {| running := false; start_button := NORMAL;
                 stop_button := DISABLED; log_area := log_area (app s);
                 message_queue := message_queue (app s);
                 monitor_thread := monitor_thread (app s) |};
     threads := threads s |}.

(** What can happen next: a click (Tk runs the command of a button only
    when the button is not disabled), the 100 ms timer, or a step of
    thread [i]. *)
Inductive action : Type :=
| ClickStart
| ClickStop
| Timer
| Work (i : nat) (t : tick).

Definition enqueue (ms : list string) (a : App) : App :=
  {| running := running a; start_button := start_button a;
     stop_button := stop_button a; log_area := log_area a;
     message_queue := message_queue a ++ ms;
     monitor_thread := monitor_thread a |}.

Fixpoint replace_nth {A : Type} (i : nat) (x : A) (l : list A) : list A :=
  match l, i with
  | [], _ => []
  | _ :: r, O => x :: r
  | y :: r, S i' => y :: replace_nth i' x r
  end.

Definition sys_step (env : environ) (a : action) (s : system) : system :=
  match a with
  | ClickStart =>
      match start_button (app s) with
      | NORMAL => start_monitoring s
      | DISABLED => s
      end
  | ClickStop =>
      match stop_button (app s) with
      | NORMAL => stop_monitoring s
      | DISABLED => s
      end
  | Timer => {| app := check_queue (app s); threads := threads s |}
  | Work i t =>
      match nth_error (threads s) i with
      | None => s
      | Some w =>
          let '(evs, w') := worker_step env (running (app s)) t w in
          {| app := enqueue (puts evs) (app s);
             threads := replace_nth i w' (threads s) |}
      end
  end.

Definition sys_run (env : environ) (acts : list action) (s : system)
  : system := fold_left (fun s a => sys_step env a s) acts s.

Definition alive (w : wstate) : bool :=
  match w with
  | WDone _ => false
  | _ => true
  end.

Definition live_workers (s : system) : nat :=
  List.length (filter alive (threads s)).

End Gui.

Import Gui.

(** * Definitions for the statements *)

Definition timeout_error : exn := Raise RequestException "read timed out".
Definition server_error : exn := Raise ServerError "received 503 HTTP response".
Definition forbidden_error : exn :=
  Raise Forbidden "received 403 HTTP response".
Definition interrupt : exn := Raise KeyboardInterrupt "".
Definition value_error : exn := Raise ValueError "boom".

Definition post1 : item := Submission "learnpython" "First" "/r/learnpython/1".
Definition post2 : item := Submission "learnpython" "Second" "/r/learnpython/2".
Definition reply1 : item := Comment "smallbusiness" "Hello" "/r/smallbusiness/c1".

(** Every variable set. *)
Definition full_env : environ := fun _ => Some "x".

(** REDDIT_PASSWORD is not set, the other four are. *)
Definition env_without_password : environ :=
  fun name => if String.eqb name "REDDIT_PASSWORD" then None else Some "x".

(** An exception that asks the interpreter to exit. *)
Definition exit_request : exn := Raise SystemExit "0".

(** Rounds of a connection that opens and a network call that then fails:
    both streams are opened, then [next(submissions_stream)] raises, or it
    returns None and [next(comments_stream)] raises; the handler runs. *)
Definition failed_polls (rounds : list (source * exn)) : list tick :=
  flat_map (fun r =>
    match fst r with
    | FromSubmissions => [ quiet; quiet; failing (snd r); quiet ]
    | FromComments => [ quiet; quiet; quiet; failing (snd r); quiet ]
    end) rounds.

(** The places of the try block that call PRAW. *)
Definition calls_praw (p : pc) : bool :=
  match p with
  | AtConnect | AtConnect2 | AtSubmissions | AtComments => true
  | AtIdle | AtExcept _ => false
  end.

(** The delays as the specification words them: d[0] = 5 and
    d[i] = min(120, floor(d[i-1] * 1.5)). *)
Fixpoint spec_delays_from (d : Z) (n : nat) : list Z :=
  match n with
  | O => []
  | S n' =>
      d :: spec_delays_from (Z.min 120 (py_int (inject_Z d * (3 # 2)))) n'
  end.

Definition spec_delays (n : nat) : list Z := spec_delays_from 5 n.

Definition streaming_pc (p : pc) : bool :=
  match p with
  | AtSubmissions | AtComments | AtIdle => true
  | _ => false
  end.

Definition arrived_submissions (ts : list tick) : list item :=
  flat_map new_submissions ts.

Definition arrived_comments (ts : list tick) : list item :=
  flat_map new_comments ts.

(** What one step keeps when both streams are open and the call does not
    fail: the place stays inside the inner loop, the backoff is untouched,
    and on each stream the items handed out followed by the items still
    queued are the items queued before followed by the new ones. *)
Record preserved (t : list tick) (f : frame) (evs : list event) (g : gstate)
  : Prop := {
  kept_pc : exists p' f', g = GRun p' f' /\ streaming_pc p' = true
              /\ backoff_seconds f' = backoff_seconds f
              /\ subreddit_string f' = subreddit_string f
              /\ yields FromSubmissions evs ++ submissions_stream f' =
                   submissions_stream f ++ arrived_submissions t
              /\ yields FromComments evs ++ comments_stream f' =
                   comments_stream f ++ arrived_comments t
}.

Definition handed_out (c : call) (s : source) (xs : list item) : list event :=
  flat_map (fun x => [ Extern c; Yield s x ]) xs.

(** The effects of a pass that starts with [xs] queued on the submissions
    stream and [ys] on the comments stream, while nothing new arrives. *)
Definition pass_events (xs ys : list item) : list event :=
  handed_out NextSubmission FromSubmissions xs ++ [ Extern NextSubmission ]
  ++ handed_out NextComment FromComments ys ++ [ Extern NextComment ]
  ++ [ Sleep (1 # 2) ].

(** A timeout while streaming, a post and a comment that appear during the
    7 seconds of backoff, then the streams are opened again. *)
Definition arrival_during_backoff : list tick :=
  [ quiet; quiet; quiet; failing timeout_error;
    arriving [ post1 ] [ reply1 ]; quiet; quiet ].

(** Effects that stay inside the listener: logging, sleeping, PRAW calls. *)
Definition internal (ev : event) : bool :=
  match ev with
  | Log _ _ | Sleep _ | Extern _ => true
  | _ => false
  end.

(** The messages that end a run: the error text when an Exception was
    caught, then the stop text. *)
Definition closing_messages (how : exit) : list string :=
  match how with
  | Failed e => [ error_message e; stopping_message ]
  | Stopped | Crashed _ => [ stopping_message ]
  end.

(** The messages of a run that goes on: the two greetings and the items. *)
Definition progress_message (m : string) : bool :=
  String.eqb m starting_message || String.eqb m connected_message
  || is_item_message m.

(** The world lets the worker through [initialize_reddit] and
    [reddit.subreddit], then the call that opens the submissions stream
    fails with [e]. *)
Definition fails_on_connect (e : exn) (r : bool) : list (bool * tick) :=
  [ (r, quiet); (r, quiet); (r, quiet); (r, failing e); (r, quiet) ].

(** The same, but the streams open and the first [next] fails with [e]. *)
Definition fails_on_first_poll (e : exn) (r : bool) : list (bool * tick) :=
  [ (r, quiet); (r, quiet); (r, quiet); (r, quiet); (r, quiet);
    (r, failing e); (r, quiet) ].

(** The stop button is pressed; the next item shows it to the worker. *)
Definition stopped_run : list (bool * tick) :=
  [ (true, quiet); (true, quiet); (true, quiet); (true, quiet);
    (true, quiet); (false, arriving [ post1 ] []); (false, quiet) ].

(** Reads a list of effects from left to right; [expect] says that the last
    effect was a yield, after which a poll and nothing else may come.  The
    result is [None] when a poll comes at any other place. *)
Fixpoint scan (expect : bool) (evs : list event) : option bool :=
  match evs with
  | [] => Some expect
  | Poll _ :: rest => if expect then scan false rest else None
  | Yield _ _ :: rest => if expect then None else scan true rest
  | _ :: rest => if expect then None else scan false rest
  end.

(** Every poll comes right after a yield, and every yield is followed by a
    poll (or ends the list). *)
Definition poll_after_each_yield (evs : list event) : bool :=
  match scan false evs with
  | Some _ => true
  | None => false
  end.

Definition is_check (w : wstate) : bool :=
  match w with
  | WCheck _ _ => true
  | _ => false
  end.

(** The flag is False from the start; an empty pass, a timeout, the
    backoff sleep, a new connection and another empty pass go by. *)
Definition unseen_stop : list (bool * tick) :=
  map (pair false)
    [ quiet; quiet; quiet; quiet; quiet; quiet; quiet; quiet;
      failing timeout_error; quiet; quiet; quiet; quiet; quiet; quiet ].

(** Two posts are queued when the first pass starts. *)
Definition two_posts_in_a_pass : list (bool * tick) :=
  map (pair true)
    [ quiet; quiet; quiet; quiet; quiet; arriving [ post1; post2 ] [];
      quiet; quiet; quiet; quiet; quiet; quiet ].

(** The buttons say whether a session is running. *)
Definition buttons_follow_flag (a : App) : bool :=
  match running a, start_button a, stop_button a with
  | true, DISABLED, NORMAL => true
  | false, NORMAL, DISABLED => true
  | _, _, _ => false
  end.

(** ** The script block of reddit_listener.py (lines 150-179) *)

Definition test_subreddits : list string := [ "smallbusiness"; "learnpython" ].

(** [s * n] on strings. *)
Fixpoint str_times (s : string) (n : nat) : string :=
  match n with
  | O => EmptyString
  | S n' => (s ++ str_times s n')%string
  end.

(** Lines 161-170: the lines printed for an item, one [print] each. *)
Definition summary_lines (x : item) : list string :=
  match x with
  | Submission display_name title permalink =>
      [ str_times "-" 40;
        ("New Post in r/" ++ display_name ++ ":")%string;
        ("  Title: " ++ title)%string;
        ("  URL: https://www.reddit.com" ++ permalink)%string ]
  | Comment display_name body permalink =>
      [ str_times "-" 40;
        ("New Comment in r/" ++ display_name ++ ":")%string;
        ("  Comment: " ++ substring 0 80 body ++ "...")%string;
        ("  URL: https://www.reddit.com" ++ permalink)%string ]
  | OtherItem => []
  end.

(** What the script does: the effects of the listener, and printed lines. *)
Inductive output : Type :=
| Effect (ev : event)
| Print (line : string).

Inductive sstate : Type :=
| SStart                           (* line 151 *)
| SInit (t_ctor : tick)            (* line 154, inside initialize_reddit *)
| SStream (g : gstate)             (* line 160: next() on the generator *)
| SDone (escaped : option exn).    (* over; [Some e] when [e] left the block *)

(** Lines 171-179: the except clauses of the script, tried in order.
    [logger.exception] logs its message at level ERROR. *)
Definition script_except (e : exn) : list output * sstate :=
  if isinstance e ValueError then
    ([ Effect (Log ERROR ("Configuration Error: " ++ exn_str e)) ], SDone None)
  else if isinstance e RuntimeError then
    ([ Effect (Log ERROR (exn_str e)) ], SDone None)
  else if isinstance e KeyboardInterrupt then
    ([ Effect (Log INFO "Shut down by user.") ], SDone None)
  else if isinstance e Exception then
    ([ Effect (Log ERROR ("An unexpected error occurred: " ++ exn_str e)) ],
     SDone None)
  else ([], SDone (Some e)).

(** One step of the script; the steps are those of the worker thread,
    without the flag. *)
Definition script_step (env : environ) (t : tick) (s : sstate)
  : list output * sstate :=
  match s with
  | SStart =>
      ([ Effect (Log INFO
                   "Running reddit_listener.py as a standalone script.") ],
       SInit t)
  | SInit t_ctor =>
      match initialize_reddit env t_ctor t with
      | (evs, Returns reddit_instance) =>
          (map Effect evs, SStream (GStart reddit_instance test_subreddits))
      | (evs, Raises e) =>
          (map Effect evs ++ fst (script_except e), snd (script_except e))
      end
  | SStream g =>
      match gen_step t g with
      | (evs, Silent, g') => (map Effect evs, SStream g')
      | (evs, Yields x, g') =>
          (map Effect evs ++ map Print (summary_lines x), SStream g')
      | (evs, Raised e, _) =>
          (map Effect evs ++ fst (script_except e), snd (script_except e))
      end
  | SDone escaped => ([], SDone escaped)
  end.

Fixpoint script_run (env : environ) (ts : list tick) (s : sstate)
  : list output * sstate :=
  match ts with
  | [] => ([], s)
  | t :: ts' =>
      let '(out, s') := script_step env t s in
      let '(out', s'') := script_run env ts' s' in
      (out ++ out', s'')
  end.

Definition printed (out : list output) : list string :=
  flat_map (fun o => match o with Print l => [ l ] | Effect _ => [] end) out.

Definition effects (out : list output) : list event :=
  flat_map (fun o => match o with Effect ev => [ ev ] | Print _ => [] end) out.

(** ** More projections and predicates *)

(** The items yielded, from either loop, in order. *)
Definition yielded (evs : list event) : list item :=
  flat_map (fun ev => match ev with Yield _ x => [ x ] | _ => [] end) evs.

Definition item_text (x : item) : list string :=
  match format_item x with
  | Some m => [ m ]
  | None => []
  end.

(** The item messages among the messages put on the queue. *)
Definition item_messages (evs : list event) : list string :=
  filter is_item_message (puts evs).

(** The item the worker holds between the yield and line 104. *)
Definition pending_text (w : wstate) : list string :=
  match w with
  | WCheck _ x => item_text x
  | _ => []
  end.

Definition new_items (s : source) (t : tick) : list item :=
  match s with
  | FromSubmissions => new_submissions t
  | FromComments => new_comments t
  end.

Definition arrived (s : source) (ts : list tick) : list item :=
  flat_map (new_items s) ts.

(** The queue of the stream of [s], when that stream is open. *)
Definition live_queue (s : source) (g : gstate) : list item :=
  match g, s with
  | GRun (AtConnect2 | AtSubmissions | AtComments | AtIdle) f,
    FromSubmissions => submissions_stream f
  | GRun (AtSubmissions | AtComments | AtIdle) f, FromComments =>
      comments_stream f
  | _, _ => []
  end.

(** [subseq l1 l2]: [l1] is [l2] with some elements left out. *)
Inductive subseq {A : Type} : list A -> list A -> Prop :=
| subseq_nil : subseq [] []
| subseq_skip (x : A) (l1 l2 : list A) : subseq l1 l2 -> subseq l1 (x :: l2)
| subseq_take (x : A) (l1 l2 : list A) :
    subseq l1 l2 -> subseq (x :: l1) (x :: l2).

Definition backoff_in_range (g : gstate) : Prop :=
  match g with
  | GRun _ f => (5 <= backoff_seconds f <= 120)%Z
  | _ => True
  end.

(** A sleep of half a second, or of a whole number of seconds from 7 to
    120. *)
Definition sleep_in_range (d : Q) : Prop :=
  d = 1 # 2 \/ exists s : Z, d = inject_Z s /\ (7 <= s <= 120)%Z.

(** The messages the Work actions of [acts] put on the queue, in order. *)
Fixpoint sys_puts (env : environ) (acts : list action) (s : system)
  : list string :=
  match acts with
  | [] => []
  | a :: acts' =>
      match a with
      | Work i t =>
          match nth_error (threads s) i with
          | Some w => puts (fst (worker_step env (running (app s)) t w))
          | None => []
          end
      | _ => []
      end ++ sys_puts env acts' (sys_step env a s)
  end.

(** What the log area holds and will hold once the queue is emptied. *)
Definition delivered (s : system) : list string :=
  log_area (app s) ++ message_queue (app s).

Definition is_stop_click (a : action) : bool :=
  match a with
  | ClickStop => true
  | _ => false
  end.

(** Start and Stop clicked in turn, [n] times. *)
Fixpoint start_stop_cycles (n : nat) : list action :=
  match n with
  | O => []
  | S n' => ClickStart :: ClickStop :: start_stop_cycles n'
  end.

(** A step of some thread while nothing arrives and nothing fails, or the
    timer. *)
Definition quiet_work (a : action) : Prop :=
  match a with
  | Work _ t => t = quiet
  | Timer => True
  | ClickStart | ClickStop => False
  end.

(** A thread that has only run with the flag cleared, in a quiet world. *)
Definition waiting (env : environ) (w : wstate) : Prop :=
  exists k : nat, w = snd (work env (repeat (false, quiet) k) WStart).

(** * Properties *)

(** ** initialize_reddit *)

Example env_without_password_misses_a_field :
  existsb (fun name => match env_without_password name with
                       | None => true
                       | Some _ => false
                       end) required_env_vars = true.
Proof. reflexivity. Qed.

(** C1: when PRAW itself raises nothing, [initialize_reddit] returns the
    client whatever the environment holds, an environment without
    REDDIT_PASSWORD included, and it has called [reddit.user.me()] by then:
    no ValueError is raised for a missing variable. *)
Theorem initialize_reddit_accepts_missing_fields :
  (forall env : environ,
      snd (initialize_reddit env quiet quiet) = Returns (getenv_credentials env)
      /\ network_calls (fst (initialize_reddit env quiet quiet)) = 1%nat)
  /\ password (getenv_credentials env_without_password) = None
  /\ initialize_reddit env_without_password quiet quiet =
       ([ Log INFO "Authenticating with Reddit...";
          Extern (PrawReddit (getenv_credentials env_without_password));
          Extern UserMe;
          Log INFO "Authentication successful. Logged in as None" ],
        Returns (getenv_credentials env_without_password)).
Proof.
  split; [ intros env; split; reflexivity | split; reflexivity ].
Qed.

(** ** The except clauses *)

Lemma handle_classify (name : string) (b : Z) (e : exn) :
  match classify e with
  | Some Interrupt | Some Access | Some Authorization | None =>
      snd (handle name b e) = Reraise /\ sleeps (fst (handle name b e)) = []
  | Some Transient =>
      snd (handle name b e) = Retry (next_backoff (sleep_for_of b))
      /\ sleeps (fst (handle name b e)) = [ inject_Z (sleep_for_of b) ]
  | Some Unknown =>
      snd (handle name b e) = Retry b
      /\ sleeps (fst (handle name b e)) = [ inject_Z 15 ]
  end.
Proof.
  unfold classify, handle.
  destruct (isinstance e KeyboardInterrupt); [ split; reflexivity | ].
  destruct (matches e [Forbidden; NotFound]); [ split; reflexivity | ].
  destruct (matches e [OAuthException; InvalidToken]);
    [ split; reflexivity | ].
  destruct (matches e [RequestException; ResponseException; ServerError]);
    [ split; reflexivity | ].
  destruct (isinstance e Exception); split; reflexivity.
Qed.

Lemma handle_transient (name : string) (b : Z) (e : exn) :
  classify e = Some Transient ->
  handle name b e =
    ([ Log WARNING ("Error streaming from Reddit: " ++ exn_str e);
       Log INFO ("Reconnecting in " ++ str_int (sleep_for_of b)
                 ++ " seconds...");
       Sleep (inject_Z (sleep_for_of b)) ],
     Retry (next_backoff (sleep_for_of b))).
Proof.
  unfold classify, handle.
  destruct (isinstance e KeyboardInterrupt); [ discriminate | ].
  destruct (matches e [Forbidden; NotFound]); [ discriminate | ].
  destruct (matches e [OAuthException; InvalidToken]); [ discriminate | ].
  destruct (matches e [RequestException; ResponseException; ServerError]);
    [ reflexivity | ].
  destruct (isinstance e Exception); discriminate.
Qed.

Lemma handle_unknown (name : string) (b : Z) (e : exn) :
  classify e = Some Unknown ->
  handle name b e =
    ([ Log ERROR ("Unexpected error: " ++ exn_str e);
       Log INFO "Reconnecting in 15 seconds...";
       Sleep (inject_Z 15) ],
     Retry b).
Proof.
  unfold classify, handle.
  destruct (isinstance e KeyboardInterrupt); [ discriminate | ].
  destruct (matches e [Forbidden; NotFound]); [ discriminate | ].
  destruct (matches e [OAuthException; InvalidToken]); [ discriminate | ].
  destruct (matches e [RequestException; ResponseException; ServerError]);
    [ discriminate | ].
  destruct (isinstance e Exception); [ reflexivity | discriminate ].
Qed.

(** The classes an exception of each kind can have. *)
Lemma classify_by_class (e : exn) :
  classify e =
    match exn_cls e with
    | KeyboardInterrupt => Some Interrupt
    | Forbidden | NotFound => Some Access
    | OAuthException | InvalidToken => Some Authorization
    | RequestException | ResponseException | ServerError
    | BadJSON | BadRequest | TooManyRequests => Some Transient
    | Exception | ValueError | RuntimeError | PrawcoreException =>
        Some Unknown
    | BaseException | SystemExit => None
    end.
Proof. destruct e as [c m]; destruct c; reflexivity. Qed.

Lemma set_backoff_same (f : frame) : set_backoff (backoff_seconds f) f = f.
Proof. destruct f; reflexivity. Qed.

(** C9: the handler of an uncategorized error logs, sleeps 15 seconds and
    goes back to connecting with the frame, [backoff_seconds] included, as
    it found it. *)
Theorem unknown_error_keeps_backoff (f : frame) (t : tick) (e : exn) :
  classify e = Some Unknown ->
  gen_step t (GRun (AtExcept e) f) =
    ([ Log ERROR ("Unexpected error: " ++ exn_str e);
       Log INFO "Reconnecting in 15 seconds...";
       Sleep (inject_Z 15) ],
     Silent,
     GRun AtConnect f).
Proof.
  intros H. cbn [gen_step].
  rewrite (handle_unknown _ _ _ H), set_backoff_same. reflexivity.
Qed.

Lemma unknown_error_keeps_backoff_witness :
  classify value_error = Some Unknown
  /\ forall b : Z,
      gen_step quiet
        (GRun (AtExcept value_error)
           {| subreddit_string := "learnpython"; backoff_seconds := b;
              submissions_stream := []; comments_stream := [] |}) =
      ([ Log ERROR "Unexpected error: boom";
         Log INFO "Reconnecting in 15 seconds...";
         Sleep (inject_Z 15) ],
       Silent,
       GRun AtConnect
           {| subreddit_string := "learnpython"; backoff_seconds := b;
              submissions_stream := []; comments_stream := [] |}).
Proof.
  split; [ reflexivity | ].
  intros b.
  apply (unknown_error_keeps_backoff
           {| subreddit_string := "learnpython"; backoff_seconds := b;
              submissions_stream := []; comments_stream := [] |}
           quiet value_error).
  reflexivity.
Defined.

(** ** Running the generator *)

Lemma drive_app (ts1 ts2 : list tick) (g : gstate) :
  drive (ts1 ++ ts2) g =
    (fst (drive ts1 g) ++ fst (drive ts2 (snd (drive ts1 g))),
     snd (drive ts2 (snd (drive ts1 g)))).
Proof.
  revert g. induction ts1 as [ | t ts1 IH ]; intros g.
  - simpl. destruct (drive ts2 g); reflexivity.
  - rewrite <- app_comm_cons. cbn [drive].
    destruct (gen_step t g) as [[evs sig] g'].
    rewrite IH.
    destruct (drive ts1 g') as [evs1 g1]. cbn [fst snd].
    rewrite app_assoc. reflexivity.
Qed.

Lemma drive_cons (t : tick) (ts : list tick) (g : gstate) :
  drive (t :: ts) g =
    (fst (fst (gen_step t g)) ++ fst (drive ts (snd (gen_step t g))),
     snd (drive ts (snd (gen_step t g)))).
Proof.
  cbn [drive]. destruct (gen_step t g) as [[evs sig] g']. cbn [fst snd].
  destruct (drive ts g'); reflexivity.
Qed.

Lemma sleeps_app (a b : list event) : sleeps (a ++ b) = sleeps a ++ sleeps b.
Proof. apply flat_map_app. Qed.

Lemma yields_app (s : source) (a b : list event) :
  yields s (a ++ b) = yields s a ++ yields s b.
Proof. apply flat_map_app. Qed.

(** C8, as the code has it: an exception raised by a PRAW call inside the
    try block is taken by the first except clause it matches.  A
    KeyboardInterrupt, an access error (Forbidden, NotFound) and an
    authorization error (OAuthException, InvalidToken) end the generator by
    propagating, with no sleep; so does an exception that is no Exception
    (SystemExit, BaseException), which no clause matches.  A transient
    network error (RequestException, ResponseException, ServerError and
    their other subclasses) sleeps min(120, int(backoff_seconds * 1.5))
    seconds, sets [backoff_seconds] to min(120, 2 * that sleep) and goes
    back to connecting.  Any other Exception sleeps 15 seconds and goes back
    to connecting with [backoff_seconds] as it was. *)
Theorem exception_policy (p : pc) (f : frame) (tf th : tick) (e : exn) :
  calls_praw p = true ->
  fault tf = Some e ->
  match exn_cls e with
  | KeyboardInterrupt | Forbidden | NotFound | OAuthException | InvalidToken
  | BaseException | SystemExit =>
      snd (drive [ tf; th ] (GRun p f)) = GDone e
      /\ sleeps (fst (drive [ tf; th ] (GRun p f))) = []
  | RequestException | ResponseException | ServerError
  | BadJSON | BadRequest | TooManyRequests =>
      sleeps (fst (drive [ tf; th ] (GRun p f))) =
        [ inject_Z (Z.min 120 (Z.quot (backoff_seconds f * 3) 2)) ]
      /\ exists f',
           snd (drive [ tf; th ] (GRun p f)) = GRun AtConnect f'
           /\ backoff_seconds f' =
                Z.min 120 (Z.min 120 (Z.quot (backoff_seconds f * 3) 2) * 2)
  | Exception | ValueError | RuntimeError | PrawcoreException =>
      sleeps (fst (drive [ tf; th ] (GRun p f))) = [ inject_Z 15 ]
      /\ exists f',
           snd (drive [ tf; th ] (GRun p f)) = GRun AtConnect f'
           /\ backoff_seconds f' = backoff_seconds f
  end.
Proof.
  intros Hp Hf. destruct e as [c m].
  destruct p; try discriminate Hp;
    rewrite !drive_cons; cbn [gen_step]; rewrite Hf; cbn [fst snd exn_cls];
    destruct c; cbn [gen_step drive fst snd];
    (split; [ reflexivity | try reflexivity; eexists; split; reflexivity ]).
Qed.

Lemma exception_policy_witness :
  sleeps (fst (drive [ failing timeout_error; quiet ]
                 (GRun AtSubmissions
                    {| subreddit_string := "smallbusiness+learnpython";
                       backoff_seconds := 5;
                       submissions_stream := []; comments_stream := [] |}))) =
    [ inject_Z (Z.min 120 (Z.quot (5 * 3) 2)) ]
  /\ exists f',
       snd (drive [ failing timeout_error; quiet ]
              (GRun AtSubmissions
                 {| subreddit_string := "smallbusiness+learnpython";
                    backoff_seconds := 5;
                    submissions_stream := []; comments_stream := [] |})) =
         GRun AtConnect f'
       /\ backoff_seconds f' =
            Z.min 120 (Z.min 120 (Z.quot (5 * 3) 2) * 2).
Proof.
  apply (exception_policy AtSubmissions
           {| subreddit_string := "smallbusiness+learnpython";
              backoff_seconds := 5;
              submissions_stream := []; comments_stream := [] |}
           (failing timeout_error) quiet timeout_error);
    reflexivity.
Defined.

(** C8, as stated, fails: a SystemExit raised by [next] is none of the
    kinds of the claim, no except clause takes it, and the generator ends
    there: it is not retried after a fixed delay, and nothing is slept. *)
Lemma uncaught_exit_is_not_retried :
  classify exit_request = None
  /\ drive [ failing exit_request; quiet; quiet; quiet ]
       (GRun AtSubmissions
          {| subreddit_string := "smallbusiness+learnpython";
             backoff_seconds := 5;
             submissions_stream := []; comments_stream := [] |}) =
     ([ Extern NextSubmission ], GDone exit_request)
  /\ sleeps (fst (drive [ failing exit_request; quiet; quiet; quiet ]
                    (GRun AtSubmissions
                       {| subreddit_string := "smallbusiness+learnpython";
                          backoff_seconds := 5;
                          submissions_stream := [];
                          comments_stream := [] |}))) <> [ inject_Z 15 ].
Proof.
  split; [ reflexivity | ]. split; [ reflexivity | ].
  intros H. vm_compute in H. discriminate H.
Qed.

(** *** Backoff *)

Lemma failed_poll_round (src : source) (e : exn) (f : frame) :
  classify e = Some Transient ->
  sleeps (fst (drive (failed_polls [ (src, e) ]) (GRun AtConnect f))) =
    [ inject_Z 7 ]
  /\ exists f', snd (drive (failed_polls [ (src, e) ]) (GRun AtConnect f)) =
                  GRun AtConnect f'.
Proof.
  intros He. unfold failed_polls. cbn [flat_map fst snd].
  destruct src; rewrite app_nil_r.
  - rewrite !drive_cons.
    cbn [gen_step fault quiet failing fst snd
         receive receive_submissions set_submissions set_comments set_backoff
         submissions_stream comments_stream backoff_seconds subreddit_string
         new_submissions new_comments Datatypes.app].
    rewrite (handle_transient (subreddit_string f) 5 e He). cbn [fst snd drive].
    split; [ reflexivity | eexists; reflexivity ].
  - rewrite !drive_cons.
    cbn [gen_step fault quiet failing fst snd
         receive receive_submissions set_submissions set_comments set_backoff
         submissions_stream comments_stream backoff_seconds subreddit_string
         new_submissions new_comments Datatypes.app].
    rewrite (handle_transient (subreddit_string f) 5 e He). cbn [fst snd drive].
    split; [ reflexivity | eexists; reflexivity ].
Qed.

Lemma failed_polls_run (rounds : list (source * exn)) :
  Forall (fun r => classify (snd r) = Some Transient) rounds ->
  forall f : frame,
    sleeps (fst (drive (failed_polls rounds) (GRun AtConnect f))) =
      map inject_Z (repeat 7%Z (List.length rounds))
    /\ exists f', snd (drive (failed_polls rounds) (GRun AtConnect f)) =
                    GRun AtConnect f'.
Proof.
  induction 1 as [ | [src e] rounds He Hr IH ]; intros f.
  - split; [ reflexivity | exists f; reflexivity ].
  - assert (Hsplit : failed_polls ((src, e) :: rounds) =
                       failed_polls [ (src, e) ] ++ failed_polls rounds)
      by (unfold failed_polls; cbn [flat_map]; rewrite app_nil_r;
          reflexivity).
    rewrite Hsplit, drive_app. cbn [fst snd].
    destruct (failed_poll_round src e f He) as [Hs [f1 Hf1]].
    rewrite Hf1, sleeps_app, Hs.
    destruct (IH f1) as [Hs2 [f2 Hf2]].
    rewrite Hs2. split; [ reflexivity | exists f2; exact Hf2 ].
Qed.

(** C2: the delay does not grow.  When a network call fails with a
    transient error [n] times in a row, each time after the streams were
    opened again, every one of the [n] sleeps lasts 7 seconds whatever
    [backoff_seconds] was at the start: line 105 has set it back to 5 by the
    time [next] can fail.  The specification's sequence for five failures is
    5, 7, 10, 15, 22. *)
Theorem transient_failures_always_sleep_7
    (name : string) (b : Z) (rounds : list (source * exn)) :
  Forall (fun r => classify (snd r) = Some Transient) rounds ->
  sleeps (fst (drive (failed_polls rounds) (connecting name b))) =
    map inject_Z (repeat 7%Z (List.length rounds))
  /\ spec_delays 5 = [5; 7; 10; 15; 22]%Z.
Proof.
  intros H. split; [ | reflexivity ].
  apply (failed_polls_run rounds H).
Qed.

Lemma transient_failures_always_sleep_7_witness :
  sleeps (fst (drive (failed_polls
                        [ (FromSubmissions, timeout_error);
                          (FromComments, server_error);
                          (FromSubmissions, timeout_error);
                          (FromSubmissions, server_error);
                          (FromComments, timeout_error) ])
                 (connecting "smallbusiness+learnpython" 5))) =
    map inject_Z [7; 7; 7; 7; 7]%Z
  /\ spec_delays 5 = [5; 7; 10; 15; 22]%Z.
Proof.
  apply (transient_failures_always_sleep_7 "smallbusiness+learnpython" 5
           [ (FromSubmissions, timeout_error);
             (FromComments, server_error);
             (FromSubmissions, timeout_error);
             (FromSubmissions, server_error);
             (FromComments, timeout_error) ]).
  repeat constructor.
Defined.

(** *** Streaming without failures *)

Lemma streaming_step (t : tick) (p : pc) (f : frame) :
  fault t = None -> streaming_pc p = true ->
  preserved [t] f (fst (fst (gen_step t (GRun p f))))
    (snd (gen_step t (GRun p f))).
Proof.
  intros Hf Hp. constructor.
  unfold arrived_submissions, arrived_comments. cbn [flat_map].
  rewrite !app_nil_r.
  destruct p; try discriminate Hp; cbn [gen_step]; rewrite ?Hf.
  - destruct (submissions_stream (receive t f)) as [ | x rest ] eqn:E;
      cbn [fst snd]; eexists; eexists; (split; [ reflexivity | ]);
      cbn in E |- *; rewrite <- ?E; repeat split; reflexivity.
  - destruct (comments_stream (receive t f)) as [ | x rest ] eqn:E;
      cbn [fst snd]; eexists; eexists; (split; [ reflexivity | ]);
      cbn in E |- *; rewrite <- ?E; repeat split; reflexivity.
  - cbn [fst snd]. eexists; eexists. split; [ reflexivity | ].
    cbn. repeat split; reflexivity.
Qed.

Lemma streaming_run (ts : list tick) :
  Forall (fun t => fault t = None) ts ->
  forall (p : pc) (f : frame),
    streaming_pc p = true ->
    preserved ts f (fst (drive ts (GRun p f))) (snd (drive ts (GRun p f))).
Proof.
  induction 1 as [ | t ts Ht Hts IH ]; intros p f Hp.
  - constructor. exists p, f. cbn. rewrite !app_nil_r. repeat split; auto.
  - rewrite drive_cons. cbn [fst snd].
    destruct (streaming_step t p f Ht Hp) as [(p1 & f1 & Hg & Hp1 & Hb & Hn & Hs & Hc)].
    rewrite Hg.
    destruct (IH p1 f1 Hp1) as [(p2 & f2 & Hg2 & Hp2 & Hb2 & Hn2 & Hs2 & Hc2)].
    constructor. exists p2, f2.
    unfold arrived_submissions, arrived_comments in *.
    cbn [flat_map] in *. rewrite app_nil_r in Hs, Hc.
    repeat split; try congruence.
    + rewrite yields_app, <- app_assoc, Hs2, app_assoc, Hs, app_assoc.
      reflexivity.
    + rewrite yields_app, <- app_assoc, Hc2, app_assoc, Hc, app_assoc.
      reflexivity.
Qed.

Lemma quiet_ticks_no_fault (k : nat) :
  Forall (fun t => fault t = None) (repeat quiet k).
Proof. induction k; constructor; auto. Qed.

Lemma quiet_ticks_bring_nothing (k : nat) :
  arrived_submissions (repeat quiet k) = []
  /\ arrived_comments (repeat quiet k) = [].
Proof. induction k as [ | k [IHs IHc] ]; split; auto. Qed.

(** *** Reset on connection *)

(** C3, as the code has it: once both streams have been opened,
    [backoff_seconds] is 5 whatever it was before, it stays 5 while items
    stream, and the handler of the next transient failure sleeps 7 seconds,
    that is min(120, int(5 * 1.5)). *)
Theorem reconnect_resets_backoff
    (name : string) (b : Z) (t1 t2 tf : tick) (ts : list tick)
    (e : exn) (f : frame) :
  fault t1 = None -> fault t2 = None ->
  Forall (fun t => fault t = None) ts ->
  classify e = Some Transient ->
  snd (drive (t1 :: t2 :: ts ++ [tf]) (connecting name b)) =
    GRun (AtExcept e) f ->
  backoff_seconds f = 5%Z
  /\ forall th : tick,
       sleeps (fst (fst (gen_step th (GRun (AtExcept e) f)))) = [ inject_Z 7 ]
       /\ snd (gen_step th (GRun (AtExcept e) f)) =
            GRun AtConnect (set_backoff 14 f).
Proof.
  intros H1 H2 Hts He Hrun.
  assert (Hb : backoff_seconds f = 5%Z).
  { rewrite drive_cons in Hrun. cbn [snd] in Hrun.
    unfold connecting in Hrun. cbn [gen_step] in Hrun.
    rewrite H1 in Hrun. cbn [snd] in Hrun.
    rewrite drive_cons in Hrun. cbn [snd gen_step] in Hrun.
    rewrite H2 in Hrun. cbn [snd] in Hrun.
    rewrite drive_app in Hrun. cbn [snd] in Hrun.
    match type of Hrun with
    | context [ drive ts (GRun AtSubmissions ?f0) ] =>
        destruct (streaming_run ts Hts AtSubmissions f0 eq_refl)
          as [(p1 & f1 & Hg & Hp1 & Hb1 & _)]
    end.
    rewrite Hg in Hrun. cbn [backoff_seconds set_backoff] in Hb1.
    cbn [drive] in Hrun.
    destruct p1; try discriminate Hp1; cbn [gen_step] in Hrun.
    - destruct (fault tf) as [ e' | ].
      + cbn [snd] in Hrun. inversion Hrun; subst. cbn. exact Hb1.
      + destruct (submissions_stream (receive tf f1)); discriminate Hrun.
    - destruct (fault tf) as [ e' | ].
      + cbn [snd] in Hrun. inversion Hrun; subst. cbn. exact Hb1.
      + destruct (comments_stream (receive tf f1)); discriminate Hrun.
    - discriminate Hrun. }
  split; [ exact Hb | ].
  intros th. cbn [gen_step].
  rewrite (handle_transient _ _ _ He), Hb. cbn [fst snd]. split; reflexivity.
Qed.

Lemma reconnect_resets_backoff_witness :
  backoff_seconds
    {| subreddit_string := "learnpython"; backoff_seconds := 5;
       submissions_stream := []; comments_stream := [ reply1 ] |} = 5%Z
  /\ forall th : tick,
       sleeps (fst (fst (gen_step th
         (GRun (AtExcept server_error)
            {| subreddit_string := "learnpython"; backoff_seconds := 5;
               submissions_stream := [];
               comments_stream := [ reply1 ] |})))) = [ inject_Z 7 ]
       /\ snd (gen_step th
            (GRun (AtExcept server_error)
               {| subreddit_string := "learnpython"; backoff_seconds := 5;
                  submissions_stream := [];
                  comments_stream := [ reply1 ] |})) =
          GRun AtConnect
            (set_backoff 14
               {| subreddit_string := "learnpython"; backoff_seconds := 5;
                  submissions_stream := [];
                  comments_stream := [ reply1 ] |}).
Proof.
  apply (reconnect_resets_backoff "learnpython" 120 quiet quiet
           (failing server_error)
           [ arriving [ post1 ] [ reply1 ]; quiet ] server_error).
  - reflexivity.
  - reflexivity.
  - repeat constructor.
  - reflexivity.
  - reflexivity.
Defined.

(** C3, as stated, fails: the streams are opened with the backoff as deep
    as it gets (120), [next] then fails with a timeout, and the sleep is 7
    seconds, not 5. *)
Lemma sleep_after_reconnect_is_not_5 :
  sleeps (fst (drive [ quiet; quiet; failing timeout_error; quiet ]
                 (connecting "smallbusiness+learnpython" 120)))
    = [ inject_Z 7 ]
  /\ sleeps (fst (drive [ quiet; quiet; failing timeout_error; quiet ]
                    (connecting "smallbusiness+learnpython" 120)))
     <> [ inject_Z 5 ].
Proof.
  split; [ reflexivity | ].
  intros H; vm_compute in H; discriminate H.
Qed.

(** *** One pass of the inner loop *)

Lemma receive_quiet (f : frame) : receive quiet f = f.
Proof.
  destruct f. unfold receive, receive_submissions. cbn.
  rewrite !app_nil_r. reflexivity.
Qed.

Lemma drain_submissions (xs : list item) (f : frame) :
  drive (repeat quiet (List.length xs))
    (GRun AtSubmissions (set_submissions xs f)) =
  (handed_out NextSubmission FromSubmissions xs,
   GRun AtSubmissions (set_submissions [] f)).
Proof.
  induction xs as [ | x xs IH ]; [ reflexivity | ].
  cbn [List.length repeat]. rewrite drive_cons.
  cbn [gen_step fault quiet]. fold quiet. rewrite receive_quiet.
  cbn [submissions_stream set_submissions fst snd].
  change (set_submissions xs (set_submissions (x :: xs) f))
    with (set_submissions xs f).
  rewrite IH. reflexivity.
Qed.

Lemma drain_comments (ys : list item) (f : frame) :
  drive (repeat quiet (List.length ys))
    (GRun AtComments (set_comments ys f)) =
  (handed_out NextComment FromComments ys,
   GRun AtComments (set_comments [] f)).
Proof.
  induction ys as [ | y ys IH ]; [ reflexivity | ].
  cbn [List.length repeat]. rewrite drive_cons.
  cbn [gen_step fault quiet]. fold quiet. rewrite receive_quiet.
  cbn [comments_stream set_comments fst snd].
  change (set_comments ys (set_comments (y :: ys) f))
    with (set_comments ys f).
  rewrite IH. reflexivity.
Qed.

Lemma frame_streams (f : frame) :
  f = set_submissions (submissions_stream f)
        (set_comments (comments_stream f) f).
Proof. destruct f; reflexivity. Qed.

Lemma merge_pass_trace (f : frame) :
  drive (repeat quiet (List.length (submissions_stream f)
                       + List.length (comments_stream f) + 3))
    (GRun AtSubmissions f) =
  (pass_events (submissions_stream f) (comments_stream f),
   GRun AtSubmissions (set_submissions [] (set_comments [] f))).
Proof.
  set (xs := submissions_stream f). set (ys := comments_stream f).
  replace (List.length xs + List.length ys + 3)%nat
    with (List.length xs + (1 + (List.length ys + 2)))%nat by lia.
  rewrite !repeat_app.
  rewrite (frame_streams f) at 1. fold xs ys.
  rewrite drive_app, drain_submissions. cbn [fst snd].
  rewrite drive_app.
  change (drive (repeat quiet 1)
            (GRun AtSubmissions (set_submissions [] (set_comments ys f))))
    with ([ Extern NextSubmission ],
          GRun AtComments
            (receive quiet (set_submissions [] (set_comments ys f)))).
  rewrite receive_quiet. cbn [fst snd].
  change (set_submissions [] (set_comments ys f))
    with (set_comments ys (set_submissions [] f)).
  rewrite drive_app, drain_comments. cbn [fst snd].
  change (drive (repeat quiet 2)
            (GRun AtComments (set_comments [] (set_submissions [] f))))
    with ([ Extern NextComment ] ++ [ Sleep (1 # 2) ],
          GRun AtSubmissions
            (receive quiet
               (receive quiet (set_comments [] (set_submissions [] f))))).
  rewrite !receive_quiet. cbn [fst snd].
  unfold pass_events. reflexivity.
Qed.

(** C5, as the code has it: a pass hands out every queued submission until
    [next] returns None, then every queued comment until [next] returns
    None, and then sleeps half a second, whether or not it handed anything
    out; the step at line 120 sleeps for every frame and every tick. *)
Theorem merge_pass_always_sleeps :
  (forall f : frame,
      drive (repeat quiet (List.length (submissions_stream f)
                           + List.length (comments_stream f) + 3))
        (GRun AtSubmissions f) =
      (pass_events (submissions_stream f) (comments_stream f),
       GRun AtSubmissions (set_submissions [] (set_comments [] f))))
  /\ (forall (t : tick) (f : frame),
         gen_step t (GRun AtIdle f) =
           ([ Sleep (1 # 2) ], Silent, GRun AtSubmissions (receive t f))).
Proof.
  split; [ apply merge_pass_trace | reflexivity ].
Qed.

(** C5, as stated, fails: a pass that hands out one submission still
    sleeps half a second before the next pass. *)
Lemma pass_with_an_item_still_sleeps :
  drive (repeat quiet 4)
    (GRun AtSubmissions
       {| subreddit_string := "smallbusiness+learnpython";
          backoff_seconds := 5;
          submissions_stream := [ post1 ]; comments_stream := [] |})
  = ([ Extern NextSubmission; Yield FromSubmissions post1;
       Extern NextSubmission; Extern NextComment; Sleep (1 # 2) ],
     GRun AtSubmissions
       {| subreddit_string := "smallbusiness+learnpython";
          backoff_seconds := 5;
          submissions_stream := []; comments_stream := [] |})
  /\ sleeps (fst (drive (repeat quiet 4)
       (GRun AtSubmissions
          {| subreddit_string := "smallbusiness+learnpython";
             backoff_seconds := 5;
             submissions_stream := [ post1 ]; comments_stream := [] |})))
     <> [].
Proof.
  split; [ reflexivity | ].
  intros H; vm_compute in H; discriminate H.
Qed.

(** *** Nothing lost, nothing reordered *)

(** Enough quiet steps empty both streams, from anywhere in the inner
    loop. *)
Lemma streams_drain (p : pc) (f : frame) :
  streaming_pc p = true ->
  exists k0 : nat,
    (k0 <= List.length (submissions_stream f)
           + List.length (comments_stream f) + 5)%nat
    /\ exists f', snd (drive (repeat quiet k0) (GRun p f)) =
                    GRun AtSubmissions f'
                  /\ submissions_stream f' = [] /\ comments_stream f' = [].
Proof.
  intros Hp. destruct p; try discriminate Hp.
  - eexists. split; [ | eexists; rewrite merge_pass_trace; cbn [snd];
                         repeat split; reflexivity ].
    lia.
  - exists (List.length (comments_stream f)
            + (2 + (List.length (submissions_stream f) + 0 + 3)))%nat.
    split; [ lia | ].
    exists (set_submissions [] (set_comments [] f)).
    split; [ | split; reflexivity ].
    set (xs := submissions_stream f). set (ys := comments_stream f).
    rewrite (frame_streams f) at 1. fold xs ys.
    change (set_submissions xs (set_comments ys f))
      with (set_comments ys (set_submissions xs f)).
    rewrite repeat_app, drive_app.
    rewrite drain_comments. cbn [fst snd].
    rewrite repeat_app, drive_app.
    change (drive (repeat quiet 2)
              (GRun AtComments (set_comments [] (set_submissions xs f))))
      with ([ Extern NextComment ] ++ [ Sleep (1 # 2) ],
            GRun AtSubmissions
              (receive quiet
                 (receive quiet (set_comments [] (set_submissions xs f))))).
    rewrite !receive_quiet. cbn [fst snd].
    change (List.length xs + 0 + 3)%nat
      with (List.length
              (submissions_stream (set_comments [] (set_submissions xs f)))
            + List.length
                (comments_stream (set_comments [] (set_submissions xs f)))
            + 3)%nat.
    rewrite merge_pass_trace. reflexivity.
  - exists (1 + (List.length (submissions_stream f)
                 + List.length (comments_stream f) + 3))%nat.
    split; [ lia | ].
    rewrite repeat_app, drive_app.
    change (drive (repeat quiet 1) (GRun AtIdle f))
      with ([ Sleep (1 # 2) ], GRun AtSubmissions (receive quiet f)).
    rewrite receive_quiet. cbn [fst snd].
    rewrite merge_pass_trace. cbn [snd].
    eexists; repeat split; reflexivity.
Qed.

(** With both streams empty and nothing arriving, nothing is handed out
    and the streams stay empty. *)
Lemma empty_streams_stay_empty (k : nat) (p : pc) (f : frame) :
  streaming_pc p = true ->
  submissions_stream f = [] -> comments_stream f = [] ->
  yields FromSubmissions (fst (drive (repeat quiet k) (GRun p f))) = []
  /\ yields FromComments (fst (drive (repeat quiet k) (GRun p f))) = []
  /\ exists p' f', snd (drive (repeat quiet k) (GRun p f)) = GRun p' f'
                   /\ streaming_pc p' = true
                   /\ submissions_stream f' = [] /\ comments_stream f' = [].
Proof.
  intros Hp Hs Hc.
  destruct (streaming_run (repeat quiet k) (quiet_ticks_no_fault k) p f Hp)
    as [(p' & f' & Hg & Hp' & _ & _ & Hys & Hyc)].
  destruct (quiet_ticks_bring_nothing k) as [As Ac].
  rewrite Hs, As in Hys. rewrite Hc, Ac in Hyc.
  apply app_eq_nil in Hys. apply app_eq_nil in Hyc.
  destruct Hys as [Hys1 Hys2]. destruct Hyc as [Hyc1 Hyc2].
  repeat split; try assumption.
  exists p', f'. repeat split; assumption.
Qed.

Lemma streams_drained_after (k : nat) (p : pc) (f : frame) :
  streaming_pc p = true ->
  (List.length (submissions_stream f) + List.length (comments_stream f) + 5
   <= k)%nat ->
  yields FromSubmissions (fst (drive (repeat quiet k) (GRun p f))) =
    submissions_stream f
  /\ yields FromComments (fst (drive (repeat quiet k) (GRun p f))) =
       comments_stream f.
Proof.
  intros Hp Hk.
  destruct (streams_drain p f Hp) as (k0 & Hk0 & f0 & Hg0 & Hs0 & Hc0).
  destruct (streaming_run (repeat quiet k) (quiet_ticks_no_fault k) p f Hp)
    as [(p' & f' & Hg & Hp' & _ & _ & Hys & Hyc)].
  destruct (quiet_ticks_bring_nothing k) as [As Ac].
  rewrite As, app_nil_r in Hys. rewrite Ac, app_nil_r in Hyc.
  assert (Hend : submissions_stream f' = [] /\ comments_stream f' = []).
  { replace k with (k0 + (k - k0))%nat in Hg by lia.
    rewrite repeat_app, drive_app in Hg. cbn [snd] in Hg.
    rewrite Hg0 in Hg.
    destruct (empty_streams_stay_empty (k - k0) AtSubmissions f0 eq_refl
                Hs0 Hc0) as (_ & _ & p1 & f1 & Hg1 & _ & Hs1 & Hc1).
    rewrite Hg1 in Hg. inversion Hg; subst. split; assumption. }
  destruct Hend as [Hs Hc]. rewrite Hs, app_nil_r in Hys.
  rewrite Hc, app_nil_r in Hyc. split; assumption.
Qed.

(** C6, as the code has it: while both streams are open and no call fails,
    whatever the order in which items arrive on the two sources, every item
    that was queued or arrives is handed out once arrivals stop, and the
    items of each source leave in the order they came in. *)
Theorem merge_delivers_in_source_order
    (p : pc) (f : frame) (ts : list tick) (k : nat) :
  streaming_pc p = true ->
  Forall (fun t => fault t = None) ts ->
  (List.length (submissions_stream f ++ arrived_submissions ts)
   + List.length (comments_stream f ++ arrived_comments ts) + 5 <= k)%nat ->
  yields FromSubmissions (fst (drive (ts ++ repeat quiet k) (GRun p f))) =
    submissions_stream f ++ arrived_submissions ts
  /\ yields FromComments (fst (drive (ts ++ repeat quiet k) (GRun p f))) =
       comments_stream f ++ arrived_comments ts.
Proof.
  intros Hp Hts Hk.
  rewrite drive_app. cbn [fst].
  destruct (streaming_run ts Hts p f Hp)
    as [(p1 & f1 & Hg & Hp1 & _ & _ & Hys & Hyc)].
  rewrite Hg, !yields_app.
  assert (Hlen : (List.length (submissions_stream f1)
                  + List.length (comments_stream f1) + 5 <= k)%nat).
  { apply (f_equal (@List.length item)) in Hys, Hyc.
    rewrite !length_app in Hys, Hyc. rewrite !length_app in Hk. lia. }
  destruct (streams_drained_after k p1 f1 Hp1 Hlen) as [Hs Hc].
  rewrite Hs, Hc. split; assumption.
Qed.

Lemma merge_delivers_in_source_order_witness :
  yields FromSubmissions
    (fst (drive ([ arriving [ post1 ] []; arriving [] [ reply1 ];
                   arriving [ post2 ] [] ] ++ repeat quiet 8)
            (GRun AtSubmissions
               {| subreddit_string := "smallbusiness+learnpython";
                  backoff_seconds := 5;
                  submissions_stream := []; comments_stream := [] |})))
    = [ post1; post2 ]
  /\ yields FromComments
       (fst (drive ([ arriving [ post1 ] []; arriving [] [ reply1 ];
                      arriving [ post2 ] [] ] ++ repeat quiet 8)
               (GRun AtSubmissions
                  {| subreddit_string := "smallbusiness+learnpython";
                     backoff_seconds := 5;
                     submissions_stream := []; comments_stream := [] |})))
       = [ reply1 ].
Proof.
  apply (merge_delivers_in_source_order AtSubmissions
           {| subreddit_string := "smallbusiness+learnpython";
              backoff_seconds := 5;
              submissions_stream := []; comments_stream := [] |}
           [ arriving [ post1 ] []; arriving [] [ reply1 ];
             arriving [ post2 ] [] ] 8).
  - reflexivity.
  - repeat constructor.
  - cbn. lia.
Defined.

(** C6, as stated, fails: the post and the comment that appear during the
    backoff sleep are never handed out, however long the generator runs
    afterwards: the streams opened after the sleep skip what exists. *)
Lemma items_arriving_during_backoff_are_lost :
  sleeps (fst (drive arrival_during_backoff
                 (GStart (getenv_credentials full_env) monitored_subreddits)))
    = [ inject_Z 7 ]
  /\ ~ (exists n : nat,
          In post1
            (yields FromSubmissions
               (fst (drive (arrival_during_backoff ++ repeat quiet n)
                       (GStart (getenv_credentials full_env)
                          monitored_subreddits))))
          \/ In reply1
               (yields FromComments
                  (fst (drive (arrival_during_backoff ++ repeat quiet n)
                          (GStart (getenv_credentials full_env)
                             monitored_subreddits))))).
Proof.
  split; [ reflexivity | ].
  intros [n H].
  rewrite drive_app in H. cbn [fst] in H.
  rewrite !yields_app in H.
  change (snd (drive arrival_during_backoff
                 (GStart (getenv_credentials full_env) monitored_subreddits)))
    with (GRun AtSubmissions
            {| subreddit_string := "smallbusiness+learnpython";
               backoff_seconds := 5;
               submissions_stream := []; comments_stream := [] |}) in H.
  destruct (empty_streams_stay_empty n AtSubmissions
              {| subreddit_string := "smallbusiness+learnpython";
                 backoff_seconds := 5;
                 submissions_stream := []; comments_stream := [] |}
              eq_refl eq_refl eq_refl) as (Hs & Hc & _).
  rewrite Hs, Hc in H.
  change (yields FromSubmissions
            (fst (drive arrival_during_backoff
                    (GStart (getenv_credentials full_env)
                       monitored_subreddits)))) with (@nil item) in H.
  change (yields FromComments
            (fst (drive arrival_during_backoff
                    (GStart (getenv_credentials full_env)
                       monitored_subreddits)))) with (@nil item) in H.
  destruct H as [ [] | [] ].
Qed.

(** ** The worker thread *)

Lemma puts_app (a b : list event) : puts (a ++ b) = puts a ++ puts b.
Proof. apply flat_map_app. Qed.

Lemma polls_app (a b : list event) : polls (a ++ b) = polls a ++ polls b.
Proof. apply flat_map_app. Qed.

Lemma internal_no_puts (evs : list event) :
  forallb internal evs = true -> puts evs = [].
Proof.
  induction evs as [ | ev evs IH ]; [ reflexivity | ].
  cbn [forallb]. intros H. apply andb_true_iff in H. destruct H as [H1 H2].
  destruct ev; try discriminate H1; cbn; auto.
Qed.

Lemma initialize_reddit_internal (env : environ) (t1 t2 : tick) :
  forallb internal (fst (initialize_reddit env t1 t2)) = true.
Proof.
  unfold initialize_reddit.
  destruct (fault t1); [ reflexivity | ].
  destruct (fault t2) as [ e | ]; [ | reflexivity ].
  destruct (matches e verification_errors); reflexivity.
Qed.

Lemma handle_internal (name : string) (b : Z) (e : exn) :
  forallb internal (fst (handle name b e)) = true.
Proof.
  unfold handle.
  destruct (isinstance e KeyboardInterrupt); [ reflexivity | ].
  destruct (matches e [Forbidden; NotFound]); [ reflexivity | ].
  destruct (matches e [OAuthException; InvalidToken]); [ reflexivity | ].
  destruct (matches e [RequestException; ResponseException; ServerError]);
    [ reflexivity | ].
  destruct (isinstance e Exception); reflexivity.
Qed.

(** A step of the generator does internal things and, when it yields, ends
    on the yield. *)
Lemma gen_step_shape (t : tick) (g : gstate) :
  match snd (fst (gen_step t g)) with
  | Yields x =>
      exists pre src, fst (fst (gen_step t g)) = pre ++ [ Yield src x ]
                      /\ forallb internal pre = true
  | _ => forallb internal (fst (fst (gen_step t g))) = true
  end.
Proof.
  destruct g as [ reddit subs | p f | e ]; cbn [gen_step].
  - destruct (fault t); reflexivity.
  - destruct p; try (destruct (fault t); reflexivity).
    + destruct (fault t); [ reflexivity | ].
      destruct (submissions_stream (receive t f)); [ reflexivity | ].
      cbn [fst snd]. exists [ Extern NextSubmission ], FromSubmissions.
      split; reflexivity.
    + destruct (fault t); [ reflexivity | ].
      destruct (comments_stream (receive t f)); [ reflexivity | ].
      cbn [fst snd]. exists [ Extern NextComment ], FromComments.
      split; reflexivity.
    + pose proof (handle_internal (subreddit_string f) (backoff_seconds f) e)
        as H.
      destruct (handle (subreddit_string f) (backoff_seconds f) e)
        as [evs [ | b ]]; exact H.
  - reflexivity.
Qed.

Lemma work_done (env : environ) (sched : list (bool * tick)) (how : exit) :
  work env sched (WDone how) = ([], WDone how).
Proof.
  induction sched as [ | [r t] sched IH ]; [ reflexivity | ].
  cbn [work worker_step]. rewrite IH. reflexivity.
Qed.

Lemma work_cons (env : environ) (r : bool) (t : tick)
    (sched : list (bool * tick)) (w : wstate) :
  work env ((r, t) :: sched) w =
    (fst (worker_step env r t w)
     ++ fst (work env sched (snd (worker_step env r t w))),
     snd (work env sched (snd (worker_step env r t w)))).
Proof.
  cbn [work]. destruct (worker_step env r t w) as [evs w']. cbn [fst snd].
  destruct (work env sched w'); reflexivity.
Qed.

(** *** What reaches the queue *)

Lemma prefix_append (p s : string) : prefix p (p ++ s) = true.
Proof.
  induction p as [ | a p IH ]; cbn.
  - destruct s; reflexivity.
  - destruct (ascii_dec a a); [ exact IH | congruence ].
Qed.

Lemma format_item_is_item_message (x : item) (m : string) :
  format_item x = Some m -> is_item_message m = true.
Proof.
  unfold is_item_message.
  destruct x; cbn [format_item]; intros H;
    [ injection H as <- | injection H as <- | discriminate H ].
  - apply orb_true_iff. left. apply (prefix_append "New Post in r/").
  - apply orb_true_iff. right. apply (prefix_append "New Comment in r/").
Qed.

Lemma leave_puts (how : exit) : puts (fst (leave how)) = closing_messages how.
Proof. destruct how; reflexivity. Qed.

Lemma raise_done (e : exn) :
  exists how, raise e = leave how
              /\ how = (if isinstance e Exception then Failed e
                        else Crashed e).
Proof. unfold raise. destruct (isinstance e Exception); eauto. Qed.

Lemma worker_step_puts (env : environ) (r : bool) (t : tick) (w : wstate) :
  alive w = true ->
  match snd (worker_step env r t w) with
  | WDone how =>
      exists pre, puts (fst (worker_step env r t w)) =
                    pre ++ closing_messages how
                  /\ forallb progress_message pre = true
  | _ => forallb progress_message (puts (fst (worker_step env r t w))) = true
  end.
Proof.
  intros Ha. destruct w as [ | t0 | g | g x | how ]; try discriminate Ha;
    cbn [worker_step].
  - reflexivity.
  - pose proof (initialize_reddit_internal env t0 t) as Hi.
    destruct (initialize_reddit env t0 t) as [evs [ reddit | e ]];
      cbn [fst snd] in *.
    + rewrite puts_app, (internal_no_puts _ Hi). reflexivity.
    + destruct (raise_done e) as (how & -> & _).
      unfold prepend, leave. cbn [fst snd].
      exists []. rewrite puts_app, (internal_no_puts _ Hi).
      split; [ destruct how | ]; reflexivity.
  - pose proof (gen_step_shape t g) as Hg.
    destruct (gen_step t g) as [[evs sig] g']. cbn [fst snd] in Hg.
    destruct sig as [ | x | e ]; cbn [fst snd].
    + rewrite (internal_no_puts _ Hg). reflexivity.
    + destruct Hg as (pre & src & -> & Hpre).
      rewrite puts_app, (internal_no_puts _ Hpre). reflexivity.
    + destruct (raise_done e) as (how & -> & _).
      unfold prepend, leave. cbn [fst snd].
      exists []. rewrite puts_app, (internal_no_puts _ Hg).
      split; [ destruct how | ]; reflexivity.
  - destruct r; cbn [negb].
    + destruct (format_item x) as [ m | ] eqn:E; cbn [fst snd puts flat_map];
        [ | reflexivity ].
      change (progress_message m && true = true).
      unfold progress_message.
      rewrite (format_item_is_item_message x m E), !orb_true_r. reflexivity.
    + cbn. exists []. split; reflexivity.
Qed.

Lemma work_puts (env : environ) (sched : list (bool * tick)) :
  forall (w : wstate) (evs : list event) (how : exit),
    alive w = true ->
    work env sched w = (evs, WDone how) ->
    exists pre, puts evs = pre ++ closing_messages how
                /\ forallb progress_message pre = true.
Proof.
  induction sched as [ | [r t] sched IH ]; intros w evs how Ha Hrun.
  - cbn in Hrun. inversion Hrun; subst. discriminate Ha.
  - rewrite work_cons in Hrun.
    pose proof (worker_step_puts env r t w Ha) as Hstep.
    destruct (worker_step env r t w) as [evs1 w1]. cbn [fst snd] in *.
    destruct (alive w1) eqn:Ha1.
    + destruct (work env sched w1) as [evs2 w2] eqn:E2. cbn [fst snd] in Hrun.
      inversion Hrun; subst.
      destruct (IH w1 evs2 how Ha1 E2) as (pre & Hp & Hpre).
      assert (H1 : forallb progress_message (puts evs1) = true)
        by (destruct w1; try discriminate Ha1; exact Hstep).
      exists (puts evs1 ++ pre). rewrite puts_app, Hp, app_assoc.
      split; [ reflexivity | ].
      rewrite forallb_app, H1, Hpre. reflexivity.
    + destruct w1 as [ | | | | how1 ]; try discriminate Ha1.
      rewrite work_done in Hrun. cbn [fst snd] in Hrun.
      inversion Hrun; subst. rewrite app_nil_r. exact Hstep.
Qed.

Lemma progress_not_closing (m : string) :
  progress_message m = true ->
  m <> stopping_message /\ forall e, m <> error_message e.
Proof.
  intros H. split; [ | intros e ]; intros ->; cbn in H; discriminate H.
Qed.

(** C4, as the code has it: however the worker ends, the queue receives the
    stop text exactly once and last; the text is the same in every case;
    an exit on an Exception puts one error text right before it, and no
    other message of the run is a stop or an error text.  When the first
    connection meets an access error, the queue holds the two greetings,
    one error text and the stop text: no item, and the worker did not
    sleep. *)
Theorem worker_exit_messages :
  (forall (env : environ) (sched : list (bool * tick)) (evs : list event)
          (how : exit),
      work env sched WStart = (evs, WDone how) ->
      exists pre,
        puts evs = pre ++ closing_messages how
        /\ forallb progress_message pre = true
        /\ ~ In stopping_message pre
        /\ forall e, ~ In (error_message e) pre)
  /\ (forall (env : environ) (e : exn) (r : bool),
         classify e = Some Access ->
         (snd (work env (fails_on_connect e r) WStart) = WDone (Failed e)
          /\ puts (fst (work env (fails_on_connect e r) WStart)) =
               [ starting_message; connected_message; error_message e;
                 stopping_message ]
          /\ sleeps (fst (work env (fails_on_connect e r) WStart)) = [])
         /\ (snd (work env (fails_on_first_poll e r) WStart) =
               WDone (Failed e)
             /\ puts (fst (work env (fails_on_first_poll e r) WStart)) =
                  [ starting_message; connected_message; error_message e;
                    stopping_message ]
             /\ sleeps (fst (work env (fails_on_first_poll e r) WStart))
                = [])).
Proof.
  split.
  - intros env sched evs how Hrun.
    destruct (work_puts env sched WStart evs how eq_refl Hrun)
      as (pre & Hp & Hpre).
    exists pre. split; [ exact Hp | ]. split; [ exact Hpre | ].
    rewrite forallb_forall in Hpre.
    split; [ | intros e ]; intros Hin; apply Hpre in Hin;
      apply progress_not_closing in Hin; destruct Hin as [Hs He].
    + apply Hs; reflexivity.
    + apply (He e); reflexivity.
  - intros env [c m] r Hc.
    destruct c; try discriminate Hc; repeat split; reflexivity.
Qed.

Lemma worker_exit_messages_witness :
  (exists pre,
      puts (fst (work full_env (fails_on_connect forbidden_error true) WStart))
        = pre ++ closing_messages (Failed forbidden_error)
      /\ forallb progress_message pre = true
      /\ ~ In stopping_message pre
      /\ forall e, ~ In (error_message e) pre)
  /\ puts (fst (work full_env (fails_on_connect forbidden_error true) WStart))
     = [ starting_message; connected_message; error_message forbidden_error;
         stopping_message ].
Proof.
  split.
  - apply (proj1 worker_exit_messages full_env
             (fails_on_connect forbidden_error true) _
             (Failed forbidden_error)).
    reflexivity.
  - apply (proj2 worker_exit_messages full_env forbidden_error true).
    reflexivity.
Defined.

(** C4, as stated, fails: a run that is stopped and a run that ends on a
    KeyboardInterrupt put the very same messages on the queue, and a run
    that ends on an access error closes with the same text as they do; the
    stop text says nothing about how the worker ended. *)
Lemma termination_message_does_not_tell_the_cause :
  snd (work full_env stopped_run WStart) = WDone Stopped
  /\ snd (work full_env (fails_on_first_poll interrupt true) WStart) =
       WDone (Crashed interrupt)
  /\ snd (work full_env (fails_on_first_poll forbidden_error true) WStart) =
       WDone (Failed forbidden_error)
  /\ puts (fst (work full_env stopped_run WStart)) =
       puts (fst (work full_env (fails_on_first_poll interrupt true) WStart))
  /\ last (puts (fst (work full_env stopped_run WStart))) "" =
       stopping_message
  /\ last (puts (fst (work full_env (fails_on_first_poll forbidden_error true)
                        WStart))) "" = stopping_message.
Proof. repeat split; reflexivity. Qed.

(** *** Where the flag is read *)

Lemma scan_app (a b : list event) (st : bool) :
  scan st (a ++ b) =
    match scan st a with
    | Some st' => scan st' b
    | None => None
    end.
Proof.
  revert st. induction a as [ | ev a IH ]; intros st; [ reflexivity | ].
  rewrite <- app_comm_cons.
  destruct ev, st; cbn [scan]; try reflexivity; apply IH.
Qed.

Lemma scan_internal (evs : list event) :
  forallb internal evs = true -> scan false evs = Some false.
Proof.
  induction evs as [ | ev evs IH ]; [ reflexivity | ].
  cbn [forallb]. intros H. apply andb_true_iff in H. destruct H as [H1 H2].
  destruct ev; try discriminate H1; cbn; auto.
Qed.

Lemma scan_leave (how : exit) : scan false (fst (leave how)) = Some false.
Proof. destruct how; reflexivity. Qed.

Lemma worker_step_scan (env : environ) (r : bool) (t : tick) (w : wstate) :
  scan (is_check w) (fst (worker_step env r t w)) =
    Some (is_check (snd (worker_step env r t w))).
Proof.
  destruct w as [ | t0 | g | g x | how ]; cbn [worker_step is_check].
  - reflexivity.
  - pose proof (initialize_reddit_internal env t0 t) as Hi.
    destruct (initialize_reddit env t0 t) as [evs [ reddit | e ]];
      cbn [fst snd] in *.
    + rewrite scan_app, (scan_internal _ Hi). reflexivity.
    + destruct (raise_done e) as (how & -> & _).
      unfold prepend. cbn [fst snd].
      rewrite scan_app, (scan_internal _ Hi), scan_leave. reflexivity.
  - pose proof (gen_step_shape t g) as Hg.
    destruct (gen_step t g) as [[evs sig] g']. cbn [fst snd] in Hg.
    destruct sig as [ | x | e ]; cbn [fst snd].
    + rewrite (scan_internal _ Hg). reflexivity.
    + destruct Hg as (pre & src & -> & Hpre).
      rewrite scan_app, (scan_internal _ Hpre). reflexivity.
    + destruct (raise_done e) as (how & -> & _).
      unfold prepend. cbn [fst snd].
      rewrite scan_app, (scan_internal _ Hg), scan_leave. reflexivity.
  - destruct r; cbn [negb].
    + destruct (format_item x); reflexivity.
    + reflexivity.
  - reflexivity.
Qed.

Lemma work_scan (env : environ) (sched : list (bool * tick)) :
  forall w : wstate,
    scan (is_check w) (fst (work env sched w)) =
      Some (is_check (snd (work env sched w))).
Proof.
  induction sched as [ | [r t] sched IH ]; intros w; [ reflexivity | ].
  rewrite work_cons. cbn [fst snd].
  rewrite scan_app, worker_step_scan. apply IH.
Qed.

Lemma internal_no_poll (evs : list event) (b : bool) :
  forallb internal evs = true -> ~ In (Poll b) evs.
Proof.
  intros H Hin. rewrite forallb_forall in H. apply H in Hin.
  discriminate Hin.
Qed.

Lemma leave_no_poll (how : exit) (b : bool) : ~ In (Poll b) (fst (leave how)).
Proof.
  destruct how; cbn; intros H;
    repeat (destruct H as [ H | H ]; [ discriminate H | ]); exact H.
Qed.

(** Only the step at line 104 that reads False carries [Poll false]: it
    puts the stop text and ends the thread. *)
Lemma worker_step_stop (env : environ) (r : bool) (t : tick) (w : wstate) :
  In (Poll false) (fst (worker_step env r t w)) ->
  fst (worker_step env r t w) = [ Poll false; Put stopping_message ]
  /\ snd (worker_step env r t w) = WDone Stopped.
Proof.
  destruct w as [ | t0 | g | g x | how ]; cbn [worker_step].
  - cbn. intros [ H | [] ]; discriminate H.
  - pose proof (initialize_reddit_internal env t0 t) as Hi.
    destruct (initialize_reddit env t0 t) as [evs [ reddit | e ]];
      cbn [fst snd] in *; intros Hin; exfalso.
    + apply in_app_or in Hin. destruct Hin as [ Hin | [ H | [] ] ].
      * exact (internal_no_poll _ _ Hi Hin).
      * discriminate H.
    + destruct (raise_done e) as (how & Hr & _). rewrite Hr in Hin.
      unfold prepend in Hin. cbn [fst] in Hin.
      apply in_app_or in Hin. destruct Hin as [ Hin | Hin ].
      * exact (internal_no_poll _ _ Hi Hin).
      * exact (leave_no_poll _ _ Hin).
  - pose proof (gen_step_shape t g) as Hg.
    destruct (gen_step t g) as [[evs sig] g']. cbn [fst snd] in Hg.
    destruct sig as [ | x | e ]; cbn [fst snd]; intros Hin; exfalso.
    + exact (internal_no_poll _ _ Hg Hin).
    + destruct Hg as (pre & src & -> & Hpre).
      apply in_app_or in Hin. destruct Hin as [ Hin | [ H | [] ] ].
      * exact (internal_no_poll _ _ Hpre Hin).
      * discriminate H.
    + destruct (raise_done e) as (how & Hr & _). rewrite Hr in Hin.
      unfold prepend in Hin. cbn [fst] in Hin.
      apply in_app_or in Hin. destruct Hin as [ Hin | Hin ].
      * exact (internal_no_poll _ _ Hg Hin).
      * exact (leave_no_poll _ _ Hin).
  - destruct r; cbn [negb].
    + destruct (format_item x); cbn; intros H;
        repeat (destruct H as [ H | H ]; [ discriminate H | ]);
        destruct H.
    + intros _. split; reflexivity.
  - intros [].
Qed.

Lemma work_stop (env : environ) (sched : list (bool * tick)) :
  forall (w : wstate) (pre post : list event),
    fst (work env sched w) = pre ++ Poll false :: post ->
    post = [ Put stopping_message ]
    /\ snd (work env sched w) = WDone Stopped.
Proof.
  induction sched as [ | [r t] sched IH ]; intros w pre post H.
  - cbn in H. destruct pre; discriminate H.
  - rewrite work_cons in *. cbn [fst snd] in *.
    apply app_eq_app in H. destruct H as [l [ [H1 H2] | [H1 H2] ] ].
    + destruct l as [ | ev l ].
      * cbn in H2. apply (IH _ [] post). symmetry. exact H2.
      * cbn in H2. injection H2 as <- H2.
        assert (Hin : In (Poll false) (fst (worker_step env r t w)))
          by (rewrite H1; apply in_or_app; right; left; reflexivity).
        destruct (worker_step_stop env r t w Hin) as [He Hw].
        rewrite Hw, work_done in *. cbn [fst snd] in *.
        rewrite app_nil_r in H2. subst post.
        rewrite He in H1.
        destruct pre as [ | a [ | a' pre ] ].
        -- injection H1 as <-. split; reflexivity.
        -- discriminate H1.
        -- injection H1 as _ _ H1. destruct pre; discriminate H1.
    + apply (IH _ l post). exact H2.
Qed.

(** C7, as the code has it: the worker reads the flag once for each item
    the generator yields, right after the yield and at no other place; when
    it reads False it puts no item message, puts the stop text once, and
    ends. *)
Theorem flag_is_polled_after_each_item
    (env : environ) (sched : list (bool * tick)) :
  poll_after_each_yield (fst (work env sched WStart)) = true
  /\ forall pre post : list event,
       fst (work env sched WStart) = pre ++ Poll false :: post ->
       post = [ Put stopping_message ]
       /\ snd (work env sched WStart) = WDone Stopped.
Proof.
  split.
  - unfold poll_after_each_yield.
    change false with (is_check WStart). rewrite work_scan. reflexivity.
  - apply work_stop.
Qed.

Lemma flag_is_polled_after_each_item_witness :
  poll_after_each_yield (fst (work full_env stopped_run WStart)) = true
  /\ [ Put stopping_message ] = [ Put stopping_message ]
  /\ snd (work full_env stopped_run WStart) = WDone Stopped.
Proof.
  split.
  - apply (proj1 (flag_is_polled_after_each_item full_env stopped_run)).
  - apply (proj2 (flag_is_polled_after_each_item full_env stopped_run)
             (firstn 12 (fst (work full_env stopped_run WStart)))
             [ Put stopping_message ]).
    reflexivity.
Defined.

(** C7, as stated, fails: with the flag cleared, two passes and a backoff
    sleep go by without one read of the flag, and the worker is still
    streaming; and a pass that yields two posts reads the flag twice. *)
Lemma flag_is_not_polled_per_pass_or_sleep :
  sleeps (fst (work full_env unseen_stop WStart)) =
    [ 1 # 2; inject_Z 7; 1 # 2 ]
  /\ polls (fst (work full_env unseen_stop WStart)) = []
  /\ alive (snd (work full_env unseen_stop WStart)) = true
  /\ sleeps (fst (work full_env two_posts_in_a_pass WStart)) = [ 1 # 2 ]
  /\ polls (fst (work full_env two_posts_in_a_pass WStart)) = [ true; true ].
Proof. repeat split; reflexivity. Qed.

(** ** The App *)

Lemma sys_step_buttons (env : environ) (a : action) (s : system) :
  buttons_follow_flag (app s) = true ->
  buttons_follow_flag (app (sys_step env a s)) = true.
Proof.
  intros H. destruct a as [ | | | i t ]; cbn [sys_step].
  - destruct (start_button (app s)); [ reflexivity | exact H ].
  - destruct (stop_button (app s)); [ reflexivity | exact H ].
  - exact H.
  - destruct (nth_error (threads s) i) as [ w | ]; [ | exact H ].
    destruct (worker_step env (running (app s)) t w). exact H.
Qed.

Lemma sys_run_buttons (env : environ) (acts : list action) :
  forall s : system,
    buttons_follow_flag (app s) = true ->
    buttons_follow_flag (app (sys_run env acts s)) = true.
Proof.
  induction acts as [ | a acts IH ]; intros s H; [ exact H | ].
  cbn [sys_run fold_left]. apply IH, sys_step_buttons, H.
Qed.

(** C10, as the code has it: [start_monitoring] and [stop_monitoring] do
    not look at the state: each call of the first starts one more thread,
    each call of the second writes the stop text to the log.  What keeps
    them from running twice is the pair of buttons: in every state the GUI
    can reach, a click on Start while a session is running and a click on
    Stop while none is running change nothing. *)
Theorem clicks_are_gated_by_the_buttons (env : environ) (acts : list action) :
  let s := sys_run env acts init in
  sys_step env ClickStart s =
    (if running (app s) then s else start_monitoring s)
  /\ sys_step env ClickStop s =
       (if running (app s) then stop_monitoring s else s)
  /\ threads (start_monitoring s) = threads s ++ [ WStart ]
  /\ log_area (app (stop_monitoring s)) =
       log_area (app s) ++ [ stopping_message ].
Proof.
  intros s.
  pose proof (sys_run_buttons env acts init eq_refl) as H. fold s in H.
  unfold buttons_follow_flag in H. cbn [sys_step].
  destruct (running (app s)), (start_button (app s)), (stop_button (app s));
    try discriminate H; repeat split; reflexivity.
Qed.

(** C10, as stated, fails: a second call of [start_monitoring] starts a
    second thread; a call of [stop_monitoring] on a stopped App writes to
    the log; and the clicks Start, Stop, Start, each on an enabled button,
    leave two live workers with the flag set for both. *)
Lemma second_start_spawns_second_worker :
  live_workers (start_monitoring (start_monitoring init)) = 2%nat
  /\ stop_monitoring init <> init
  /\ live_workers
       (sys_run full_env
          [ ClickStart; Work 0 quiet; Work 0 quiet; ClickStop; ClickStart;
            Work 1 quiet; Work 0 quiet; Work 1 quiet ] init) = 2%nat
  /\ running
       (app (sys_run full_env
               [ ClickStart; Work 0 quiet; Work 0 quiet; ClickStop;
                 ClickStart; Work 1 quiet; Work 0 quiet; Work 1 quiet ]
               init)) = true.
Proof.
  repeat split; try reflexivity.
  intros H. discriminate H.
Qed.

(** * Further properties *)

(** ** initialize_reddit: errors *)

(** X1: an exception of [praw.Reddit(...)] leaves [initialize_reddit] as it
    is, before [reddit.user.me()] is called.  An exception of
    [reddit.user.me()] leaves as a RuntimeError that quotes it when its class
    is OAuthException, RequestException, ResponseException or a subclass of
    these, and as it is otherwise. *)
Theorem initialize_reddit_errors
    (env : environ) (t_ctor t_me : tick) (e : exn) :
  (fault t_ctor = Some e ->
   initialize_reddit env t_ctor t_me =
     ([ Log INFO "Authenticating with Reddit...";
        Extern (PrawReddit (getenv_credentials env)) ], Raises e))
  /\ (fault t_ctor = None -> fault t_me = Some e ->
      snd (initialize_reddit env t_ctor t_me) =
        Raises
          match exn_cls e with
          | OAuthException | RequestException | ResponseException
          | BadJSON | BadRequest | Forbidden | InvalidToken | NotFound
          | ServerError | TooManyRequests =>
              Raise RuntimeError
                ("Failed to verify Reddit authentication: " ++ exn_str e)
          | _ => e
          end
      /\ network_calls (fst (initialize_reddit env t_ctor t_me)) = 1%nat).
Proof.
  split.
  - intros H. unfold initialize_reddit. rewrite H. reflexivity.
  - intros H1 H2. unfold initialize_reddit. rewrite H1, H2.
    destruct e as [c m]. destruct c; split; reflexivity.
Qed.

Lemma initialize_reddit_errors_witness :
  initialize_reddit env_without_password (failing value_error) quiet =
    ([ Log INFO "Authenticating with Reddit...";
       Extern (PrawReddit (getenv_credentials env_without_password)) ],
     Raises value_error)
  /\ snd (initialize_reddit full_env quiet (failing forbidden_error)) =
       Raises (Raise RuntimeError
                 "Failed to verify Reddit authentication: received 403 HTTP response").
Proof.
  split.
  - apply (proj1 (initialize_reddit_errors env_without_password
                    (failing value_error) quiet value_error)).
    reflexivity.
  - apply (proj2 (initialize_reddit_errors full_env quiet
                    (failing forbidden_error) forbidden_error));
      reflexivity.
Defined.

(** X2: [initialize_reddit] makes no ValueError of its own: when it raises
    one, it is the very exception a PRAW call raised. *)
Theorem initialize_reddit_makes_no_ValueError
    (env : environ) (t_ctor t_me : tick) (e : exn) :
  snd (initialize_reddit env t_ctor t_me) = Raises e ->
  isinstance e ValueError = true ->
  fault t_ctor = Some e \/ fault t_me = Some e.
Proof.
  unfold initialize_reddit.
  destruct (fault t_ctor) as [ e1 | ].
  - cbn [snd]. intros H _. injection H as <-. left. reflexivity.
  - destruct (fault t_me) as [ e2 | ]; [ | discriminate ].
    destruct (matches e2 verification_errors); cbn [snd]; intros H Hv.
    + injection H as <-. discriminate Hv.
    + injection H as <-. right. reflexivity.
Qed.

Lemma initialize_reddit_makes_no_ValueError_witness :
  fault (failing value_error) = Some value_error
  \/ fault quiet = Some value_error.
Proof.
  apply (initialize_reddit_makes_no_ValueError env_without_password
           (failing value_error) quiet value_error); reflexivity.
Defined.

(** ** The generator: ranges *)

Lemma sleep_for_of_quot (b : Z) :
  sleep_for_of b = Z.min 120 (Z.quot (b * 3) 2).
Proof. reflexivity. Qed.

Lemma sleep_for_bounds (b : Z) :
  (5 <= b <= 120)%Z ->
  (7 <= sleep_for_of b <= 120)%Z
  /\ (5 <= next_backoff (sleep_for_of b) <= 120)%Z.
Proof.
  intros Hb. rewrite sleep_for_of_quot. unfold next_backoff, max_backoff_seconds.
  rewrite Z.quot_div_nonneg by lia.
  assert (7 <= b * 3 / 2)%Z by (apply Z.div_le_lower_bound; lia).
  lia.
Qed.

Lemma handle_ranges (name : string) (b : Z) (e : exn) :
  (5 <= b <= 120)%Z ->
  Forall sleep_in_range (sleeps (fst (handle name b e)))
  /\ match snd (handle name b e) with
     | Retry b' => (5 <= b' <= 120)%Z
     | Reraise => True
     end.
Proof.
  intros Hb. pose proof (handle_classify name b e) as H.
  destruct (sleep_for_bounds b Hb) as [Hs Hn].
  destruct (classify e) as [ [ | | | | ] | ]; destruct H as [-> ->];
    cbn [sleeps flat_map app]; split; try exact I; try apply Forall_nil;
    try assumption.
  - apply Forall_cons; [ | apply Forall_nil ].
    right. exists (sleep_for_of b). split; [ reflexivity | exact Hs ].
  - apply Forall_cons; [ | apply Forall_nil ].
    right. exists 15%Z. split; [ reflexivity | lia ].
Qed.

Lemma gen_step_ranges (t : tick) (g : gstate) :
  backoff_in_range g ->
  backoff_in_range (snd (gen_step t g))
  /\ Forall sleep_in_range (sleeps (fst (fst (gen_step t g)))).
Proof.
  intros Hg.
  assert (Hidle : Forall sleep_in_range [ 1 # 2 ])
    by (apply Forall_cons; [ left; reflexivity | apply Forall_nil ]).
  destruct g as [ reddit subs | p f | e ]; cbn [gen_step].
  - destruct (fault t); (split; [ cbn; first [ exact I | lia ]
                                | apply Forall_nil ]).
  - cbn [backoff_in_range] in Hg.
    destruct p.
    + destruct (fault t); (split; [ exact Hg | apply Forall_nil ]).
    + destruct (fault t); (split; [ cbn; lia | apply Forall_nil ]).
    + destruct (fault t); [ split; [ exact Hg | apply Forall_nil ] | ].
      destruct (submissions_stream (receive t f));
        (split; [ exact Hg | apply Forall_nil ]).
    + destruct (fault t); [ split; [ exact Hg | apply Forall_nil ] | ].
      destruct (comments_stream (receive t f));
        (split; [ exact Hg | apply Forall_nil ]).
    + split; [ exact Hg | exact Hidle ].
    + destruct (handle_ranges (subreddit_string f) (backoff_seconds f) e Hg)
        as [Hs Hv].
      destruct (handle (subreddit_string f) (backoff_seconds f) e)
        as [evs [ | b' ]]; cbn [fst snd] in *;
        (split; [ first [ exact I | exact Hv ] | exact Hs ]).
  - split; [ exact I | apply Forall_nil ].
Qed.

Lemma drive_ranges (ts : list tick) :
  forall g : gstate,
    backoff_in_range g ->
    backoff_in_range (snd (drive ts g))
    /\ Forall sleep_in_range (sleeps (fst (drive ts g))).
Proof.
  induction ts as [ | t ts IH ]; intros g Hg.
  - cbn. split; [ exact Hg | constructor ].
  - rewrite drive_cons. cbn [fst snd].
    destruct (gen_step_ranges t g Hg) as [Hg1 Hs1].
    destruct (IH _ Hg1) as [Hg2 Hs2].
    split; [ exact Hg2 | ].
    rewrite sleeps_app. apply Forall_app. split; assumption.
Qed.

(** X3: at every point of every run of the generator, whatever fails and
    whatever arrives, [backoff_seconds] is at least 5 and at most 120. *)
Theorem backoff_stays_in_range
    (reddit : reddit_client) (sub_reddits : list string) (ts : list tick)
    (p : pc) (f : frame) :
  snd (drive ts (GStart reddit sub_reddits)) = GRun p f ->
  (5 <= backoff_seconds f <= 120)%Z.
Proof.
  intros H.
  destruct (drive_ranges ts (GStart reddit sub_reddits) I) as [Hg _].
  rewrite H in Hg. exact Hg.
Qed.

Lemma backoff_stays_in_range_witness :
  (5 <= backoff_seconds
          {| subreddit_string := "smallbusiness+learnpython";
             backoff_seconds := 42;
             submissions_stream := []; comments_stream := [] |} <= 120)%Z.
Proof.
  apply (backoff_stays_in_range (getenv_credentials full_env)
           monitored_subreddits
           [ quiet; failing timeout_error; quiet; failing server_error;
             quiet ]
           AtConnect).
  reflexivity.
Defined.

(** X4: every sleep of the generator, in every run, lasts half a second or
    a whole number of seconds between 7 and 120. *)
Theorem sleeps_stay_in_range
    (reddit : reddit_client) (sub_reddits : list string) (ts : list tick) :
  Forall sleep_in_range
    (sleeps (fst (drive ts (GStart reddit sub_reddits)))).
Proof.
  apply (drive_ranges ts (GStart reddit sub_reddits) I).
Qed.

(** ** The generator: nothing invented, doubled or reordered *)

Lemma subseq_refl {A : Type} (l : list A) : subseq l l.
Proof. induction l; constructor; assumption. Qed.

Lemma subseq_nil_l {A : Type} (l : list A) : subseq [] l.
Proof. induction l; constructor; assumption. Qed.

Lemma subseq_trans {A : Type} (l1 l2 l3 : list A) :
  subseq l1 l2 -> subseq l2 l3 -> subseq l1 l3.
Proof.
  intros H12 H23. revert l1 H12.
  induction H23 as [ | x l2 l3 H23 IH | x l2 l3 H23 IH ]; intros l1 H12.
  - exact H12.
  - constructor. apply IH. exact H12.
  - inversion H12; subst.
    + apply subseq_skip. apply IH. assumption.
    + apply subseq_take. apply IH. assumption.
Qed.

Lemma subseq_app {A : Type} (a b c d : list A) :
  subseq a c -> subseq b d -> subseq (a ++ b) (c ++ d).
Proof.
  intros Hac Hbd.
  induction Hac; cbn;
    [ exact Hbd | apply subseq_skip; assumption
    | apply subseq_take; assumption ].
Qed.

Lemma subseq_app_l {A : Type} (a b c : list A) :
  subseq (a ++ b) c -> subseq a c.
Proof.
  apply subseq_trans.
  rewrite <- (app_nil_r a) at 1.
  apply subseq_app; [ apply subseq_refl | apply subseq_nil_l ].
Qed.

Lemma subseq_app_r {A : Type} (a c d : list A) :
  subseq a c -> subseq a (c ++ d).
Proof.
  intros H. rewrite <- (app_nil_r a).
  apply subseq_app; [ exact H | apply subseq_nil_l ].
Qed.

(** One step: what the step yields from a source, followed by what the
    open stream of that source still holds, comes from what it held and
    what is new, in that order. *)
Lemma gen_step_subseq (s : source) (t : tick) (g : gstate) :
  subseq (yields s (fst (fst (gen_step t g)))
          ++ live_queue s (snd (gen_step t g)))
         (live_queue s g ++ new_items s t).
Proof.
  destruct g as [ reddit subs | p f | e ]; cbn [gen_step].
  - destruct (fault t), s; apply subseq_nil_l.
  - destruct p.
    + destruct (fault t), s; apply subseq_nil_l.
    + destruct (fault t), s; cbn; try apply subseq_nil_l;
        try apply subseq_refl.
    + destruct (fault t); [ destruct s; apply subseq_nil_l | ].
      destruct (submissions_stream (receive t f)) as [ | x rest ] eqn:E;
        destruct s; cbn in E |- *; rewrite <- ?E; apply subseq_refl.
    + destruct (fault t); [ destruct s; apply subseq_nil_l | ].
      destruct (comments_stream (receive t f)) as [ | x rest ] eqn:E;
        destruct s; cbn in E |- *; rewrite <- ?E; apply subseq_refl.
    + destruct s; cbn; apply subseq_refl.
    + destruct (handle (subreddit_string f) (backoff_seconds f) e)
        as [evs v] eqn:Eh.
      pose proof (handle_internal (subreddit_string f) (backoff_seconds f) e)
        as Hi.
      rewrite Eh in Hi. cbn [fst] in Hi.
      assert (Hy : yields s evs = []).
      { clear Eh. induction evs as [ | ev evs IH ]; [ reflexivity | ].
        cbn [forallb] in Hi. apply andb_true_iff in Hi.
        destruct Hi as [H1 H2].
        destruct ev; try discriminate H1; cbn; apply IH; exact H2. }
      destruct v; cbn [fst snd]; rewrite Hy; destruct s; apply subseq_nil_l.
  - destruct s; apply subseq_nil_l.
Qed.

Lemma drive_subseq (s : source) (ts : list tick) :
  forall g : gstate,
    subseq (yields s (fst (drive ts g)) ++ live_queue s (snd (drive ts g)))
           (live_queue s g ++ arrived s ts).
Proof.
  induction ts as [ | t ts IH ]; intros g.
  - cbn. rewrite app_nil_r. apply subseq_refl.
  - rewrite drive_cons. cbn [fst snd].
    rewrite yields_app, <- app_assoc.
    change (arrived s (t :: ts)) with (new_items s t ++ arrived s ts).
    apply subseq_trans
      with (l2 := yields s (fst (fst (gen_step t g)))
                  ++ (live_queue s (snd (gen_step t g)) ++ arrived s ts)).
    + apply subseq_app; [ apply subseq_refl | apply IH ].
    + rewrite !app_assoc.
      apply subseq_app; [ apply gen_step_subseq | apply subseq_refl ].
Qed.

(** X6: in every run of the generator, failures and reconnections included,
    the items yielded from a source are items that appeared on that source,
    each at most once and in the order of their appearance. *)
Theorem yields_come_from_arrivals_in_order
    (s : source) (reddit : reddit_client) (sub_reddits : list string)
    (ts : list tick) :
  subseq (yields s (fst (drive ts (GStart reddit sub_reddits))))
         (arrived s ts).
Proof.
  apply subseq_app_l
    with (b := live_queue s (snd (drive ts (GStart reddit sub_reddits)))).
  apply (drive_subseq s ts (GStart reddit sub_reddits)).
Qed.

(** ** The worker: a stop without items *)

Lemma idle_worker_step (env : environ) (p : pc) (f : frame) :
  streaming_pc p = true ->
  submissions_stream f = [] -> comments_stream f = [] ->
  exists p' evs,
    worker_step env false quiet (WStream (GRun p f)) =
      (evs, WStream (GRun p' f))
    /\ streaming_pc p' = true /\ polls evs = [] /\ puts evs = [].
Proof.
  intros Hp Hs Hc.
  destruct p; try discriminate Hp; cbn [worker_step gen_step fault quiet];
    fold quiet; rewrite ?receive_quiet, ?Hs, ?Hc.
  - exists AtComments. eexists. repeat split; reflexivity.
  - exists AtIdle. eexists. repeat split; reflexivity.
  - exists AtSubmissions. eexists. repeat split; reflexivity.
Qed.

Lemma idle_worker_run (env : environ) (n : nat) :
  forall (p : pc) (f : frame),
    streaming_pc p = true ->
    submissions_stream f = [] -> comments_stream f = [] ->
    exists p',
      snd (work env (repeat (false, quiet) n) (WStream (GRun p f))) =
        WStream (GRun p' f)
      /\ polls (fst (work env (repeat (false, quiet) n)
                       (WStream (GRun p f)))) = []
      /\ puts (fst (work env (repeat (false, quiet) n)
                      (WStream (GRun p f)))) = [].
Proof.
  induction n as [ | n IH ]; intros p f Hp Hs Hc.
  - exists p. repeat split; reflexivity.
  - cbn [repeat]. rewrite work_cons.
    destruct (idle_worker_step env p f Hp Hs Hc)
      as (p1 & evs & -> & Hp1 & Hpo & Hpu).
    cbn [fst snd].
    destruct (IH p1 f Hp1 Hs Hc) as (p2 & Hw & Hpo2 & Hpu2).
    exists p2. rewrite polls_app, puts_app, Hpo, Hpu, Hpo2, Hpu2.
    repeat split; assumption.
Qed.

Lemma work_app (env : environ) (s1 s2 : list (bool * tick)) (w : wstate) :
  work env (s1 ++ s2) w =
    (fst (work env s1 w) ++ fst (work env s2 (snd (work env s1 w))),
     snd (work env s2 (snd (work env s1 w)))).
Proof.
  revert w. induction s1 as [ | [r t] s1 IH ]; intros w.
  - simpl. destruct (work env s2 w); reflexivity.
  - rewrite <- app_comm_cons, !work_cons, IH. cbn [fst snd].
    rewrite app_assoc. reflexivity.
Qed.

Lemma waiting_worker (env : environ) (n : nat) :
  polls (fst (work env (repeat (false, quiet) n) WStart)) = []
  /\ ~ In stopping_message
         (puts (fst (work env (repeat (false, quiet) n) WStart)))
  /\ alive (snd (work env (repeat (false, quiet) n) WStart)) = true.
Proof.
  destruct (Nat.le_gt_cases n 5) as [ Hn | Hn ].
  - do 6 (destruct n as [ | n ];
          [ repeat split; try reflexivity; cbn;
            intros H; repeat (destruct H as [ H | H ];
                              [ discriminate H | ]); exact H | ]).
    lia.
  - replace n with (5 + (n - 5))%nat by lia.
    rewrite repeat_app, work_app.
    change (snd (work env (repeat (false, quiet) 5) WStart))
      with (WStream (GRun AtSubmissions
              {| subreddit_string := "smallbusiness+learnpython";
                 backoff_seconds := 5;
                 submissions_stream := []; comments_stream := [] |})).
    destruct (idle_worker_run env (n - 5) AtSubmissions
                {| subreddit_string := "smallbusiness+learnpython";
                   backoff_seconds := 5;
                   submissions_stream := []; comments_stream := [] |}
                eq_refl eq_refl eq_refl) as (p' & Hw & Hpo & Hpu).
    cbn [fst snd]. rewrite polls_app, puts_app, Hpo, Hpu, Hw, !app_nil_r.
    repeat split; try reflexivity.
    cbn. intros H.
    repeat (destruct H as [ H | H ]; [ discriminate H | ]); exact H.
Qed.

(** X7: while no item arrives and no call fails, a cleared flag is never
    seen: however many steps the worker takes with [self.running] False, it
    does not read the flag, does not put the stop text, and stays alive. *)
Theorem stop_is_not_seen_without_items (env : environ) (n : nat) :
  polls (fst (work env (repeat (false, quiet) n) WStart)) = []
  /\ ~ In stopping_message
         (puts (fst (work env (repeat (false, quiet) n) WStart)))
  /\ alive (snd (work env (repeat (false, quiet) n) WStart)) = true.
Proof. apply waiting_worker. Qed.

(** ** The worker: what it forwards *)

Lemma item_messages_app (a b : list event) :
  item_messages (a ++ b) = item_messages a ++ item_messages b.
Proof. unfold item_messages. rewrite puts_app. apply filter_app. Qed.

Lemma yielded_app (a b : list event) : yielded (a ++ b) = yielded a ++ yielded b.
Proof. apply flat_map_app. Qed.

Lemma internal_no_yielded (evs : list event) :
  forallb internal evs = true -> yielded evs = [].
Proof.
  induction evs as [ | ev evs IH ]; [ reflexivity | ].
  cbn [forallb]. intros H. apply andb_true_iff in H. destruct H as [H1 H2].
  destruct ev; try discriminate H1; cbn; auto.
Qed.

Lemma internal_no_item_messages (evs : list event) :
  forallb internal evs = true -> item_messages evs = [].
Proof.
  intros H. unfold item_messages. rewrite (internal_no_puts _ H). reflexivity.
Qed.

Lemma leave_forwards_nothing (how : exit) :
  item_messages (fst (leave how)) = [] /\ yielded (fst (leave how)) = [].
Proof. destruct how; split; reflexivity. Qed.

(** One step with the flag set: the item messages put, followed by the
    text of an item held for line 104 afterwards, are the text of the item
    held before followed by the texts of the items yielded. *)
Lemma worker_step_forwards (env : environ) (t : tick) (w : wstate) :
  item_messages (fst (worker_step env true t w))
  ++ pending_text (snd (worker_step env true t w)) =
  pending_text w
  ++ flat_map item_text (yielded (fst (worker_step env true t w))).
Proof.
  destruct w as [ | t0 | g | g x | how ]; cbn [worker_step pending_text].
  - reflexivity.
  - pose proof (initialize_reddit_internal env t0 t) as Hi.
    destruct (initialize_reddit env t0 t) as [evs [ reddit | e ]];
      cbn [fst snd] in *.
    + rewrite item_messages_app, yielded_app,
        (internal_no_item_messages _ Hi), (internal_no_yielded _ Hi).
      reflexivity.
    + destruct (raise_done e) as (how & -> & _).
      unfold prepend. cbn [fst snd].
      destruct (leave_forwards_nothing how) as [H1 H2].
      rewrite item_messages_app, yielded_app,
        (internal_no_item_messages _ Hi), (internal_no_yielded _ Hi), H1, H2.
      reflexivity.
  - pose proof (gen_step_shape t g) as Hg.
    destruct (gen_step t g) as [[evs sig] g']. cbn [fst snd] in Hg.
    destruct sig as [ | x | e ]; cbn [fst snd pending_text].
    + rewrite (internal_no_item_messages _ Hg), (internal_no_yielded _ Hg).
      reflexivity.
    + destruct Hg as (pre & src & -> & Hpre).
      rewrite item_messages_app, yielded_app,
        (internal_no_item_messages _ Hpre), (internal_no_yielded _ Hpre).
      cbn. rewrite app_nil_r. reflexivity.
    + destruct (raise_done e) as (how & -> & _).
      unfold prepend. cbn [fst snd].
      destruct (leave_forwards_nothing how) as [H1 H2].
      rewrite item_messages_app, yielded_app,
        (internal_no_item_messages _ Hg), (internal_no_yielded _ Hg), H1, H2.
      reflexivity.
  - cbn [negb]. unfold item_text.
    destruct (format_item x) as [ m | ] eqn:E; cbn [fst snd pending_text].
    + unfold item_messages. cbn.
      rewrite (format_item_is_item_message x m E). reflexivity.
    + reflexivity.
  - reflexivity.
Qed.

Lemma work_forwards (env : environ) (ts : list tick) :
  forall w : wstate,
    item_messages (fst (work env (map (pair true) ts) w))
    ++ pending_text (snd (work env (map (pair true) ts) w)) =
    pending_text w
    ++ flat_map item_text
         (yielded (fst (work env (map (pair true) ts) w))).
Proof.
  induction ts as [ | t ts IH ]; intros w.
  - cbn. rewrite !app_nil_r. reflexivity.
  - cbn [map]. rewrite work_cons. cbn [fst snd].
    rewrite item_messages_app, yielded_app, flat_map_app, <- app_assoc, IH.
    rewrite !app_assoc, worker_step_forwards. reflexivity.
Qed.

(** X8: while [self.running] stays True the worker forwards every item the
    generator yields, in the order of the yields, Submissions and Comments
    as their text and anything else not at all: the item messages on the
    queue, with the text of an item still held at line 104, are the texts
    of the items yielded. *)
Theorem worker_forwards_every_item (env : environ) (ts : list tick) :
  item_messages (fst (work env (map (pair true) ts) WStart))
  ++ pending_text (snd (work env (map (pair true) ts) WStart)) =
  flat_map item_text (yielded (fst (work env (map (pair true) ts) WStart))).
Proof. apply (work_forwards env ts WStart). Qed.

(** ** The text of a comment *)

Lemma substring_within (n : nat) :
  forall s t : string,
    (n <= String.length s)%nat ->
    substring 0 n (s ++ t) = substring 0 n s.
Proof.
  induction n as [ | n IH ]; intros s t H.
  - destruct s, t; reflexivity.
  - destruct s as [ | c s ]; [ cbn in H; lia | ].
    cbn. rewrite IH; [ reflexivity | cbn in H; lia ].
Qed.

Lemma substring_whole (n : nat) :
  forall s : string, (String.length s <= n)%nat -> substring 0 n s = s.
Proof.
  induction n as [ | n IH ]; intros s H.
  - destruct s; [ reflexivity | cbn in H; lia ].
  - destruct s as [ | c s ]; [ reflexivity | ].
    cbn. rewrite IH; [ reflexivity | cbn in H; lia ].
Qed.

(** X9: the message for a comment shows the body up to its 80th character:
    a body of at most 80 characters is shown whole, and what follows the
    80th character of a longer body does not change the message. *)
Theorem comment_text_is_cut_at_80 (display_name body permalink : string) :
  ((String.length body <= 80)%nat ->
   format_item (Comment display_name body permalink) =
     Some ("New Comment in r/" ++ display_name ++ ":" ++ nl
           ++ "  Comment: " ++ body ++ "..." ++ nl
           ++ "  URL: https://www.reddit.com" ++ permalink ++ nl)%string)
  /\ ((80 <= String.length body)%nat ->
      forall more : string,
        format_item (Comment display_name (body ++ more) permalink) =
          format_item (Comment display_name body permalink)).
Proof.
  split.
  - intros H. cbn [format_item]. rewrite (substring_whole 80 body H).
    reflexivity.
  - intros H more. cbn [format_item].
    rewrite (substring_within 80 body more H). reflexivity.
Qed.

Lemma comment_text_is_cut_at_80_witness :
  format_item (Comment "smallbusiness" "Hello" "/r/smallbusiness/c1") =
    Some ("New Comment in r/" ++ "smallbusiness" ++ ":" ++ nl
          ++ "  Comment: " ++ "Hello" ++ "..." ++ nl
          ++ "  URL: https://www.reddit.com" ++ "/r/smallbusiness/c1" ++ nl)%string
  /\ forall more : string,
       format_item (Comment "learnpython"
                      (str_times "0123456789" 8 ++ more) "/c") =
         format_item (Comment "learnpython" (str_times "0123456789" 8) "/c").
Proof.
  split.
  - apply (proj1 (comment_text_is_cut_at_80 "smallbusiness" "Hello"
                    "/r/smallbusiness/c1")).
    cbn. lia.
  - apply (proj2 (comment_text_is_cut_at_80 "learnpython"
                    (str_times "0123456789" 8) "/c")).
    cbn. lia.
Defined.

(** ** The worker: credentials that do not verify *)

(** X10: when [reddit.user.me()] fails with an error of the verification
    clause, the queue receives the greeting, one error text that quotes the
    RuntimeError, and the stop text; "Connection successful." is not put
    and no subreddit or stream is asked for. *)
Theorem worker_reports_failed_verification
    (env : environ) (e : exn) (r1 r2 : bool) (t_me : tick) :
  fault t_me = Some e ->
  matches e verification_errors = true ->
  work env [ (r1, quiet); (r2, t_me) ] WStart =
    ([ Put starting_message;
       Log INFO "Authenticating with Reddit...";
       Extern (PrawReddit (getenv_credentials env));
       Extern UserMe;
       Put (error_message
              (Raise RuntimeError
                 ("Failed to verify Reddit authentication: " ++ exn_str e)));
       Put stopping_message ],
     WDone (Failed
              (Raise RuntimeError
                 ("Failed to verify Reddit authentication: " ++ exn_str e)))).
Proof.
  intros Hf Hm.
  cbn [work worker_step]. unfold initialize_reddit.
  cbn [fault quiet]. rewrite Hf, Hm. reflexivity.
Qed.

Lemma worker_reports_failed_verification_witness :
  puts (fst (work full_env
               [ (true, quiet); (true, failing forbidden_error) ] WStart)) =
    [ starting_message;
      error_message
        (Raise RuntimeError
           "Failed to verify Reddit authentication: received 403 HTTP response");
      stopping_message ].
Proof.
  rewrite (worker_reports_failed_verification full_env forbidden_error
             true true (failing forbidden_error) eq_refl eq_refl).
  reflexivity.
Defined.

(** ** The App: the queue and the log *)

Lemma sys_run_cons (env : environ) (a : action) (acts : list action)
    (s : system) :
  sys_run env (a :: acts) s = sys_run env acts (sys_step env a s).
Proof. reflexivity. Qed.

Lemma sys_run_app (env : environ) (acts1 acts2 : list action) (s : system) :
  sys_run env (acts1 ++ acts2) s = sys_run env acts2 (sys_run env acts1 s).
Proof. apply fold_left_app. Qed.

Lemma sys_step_delivered (env : environ) (a : action) (s : system) :
  is_stop_click a = false ->
  delivered (sys_step env a s) = delivered s ++ sys_puts env [ a ] s.
Proof.
  intros Ha. unfold delivered.
  destruct a as [ | | | i t ]; try discriminate Ha; cbn [sys_step sys_puts].
  - rewrite !app_nil_r. destruct (start_button (app s)); reflexivity.
  - cbn. rewrite !app_nil_r. reflexivity.
  - destruct (nth_error (threads s) i) as [ w | ].
    + destruct (worker_step env (running (app s)) t w) as [evs w'].
      cbn. rewrite app_nil_r, app_assoc. reflexivity.
    + rewrite !app_nil_r. reflexivity.
Qed.

Lemma sys_run_delivered (env : environ) (acts : list action) :
  forall s : system,
    forallb (fun a => negb (is_stop_click a)) acts = true ->
    delivered (sys_run env acts s) = delivered s ++ sys_puts env acts s.
Proof.
  induction acts as [ | a acts IH ]; intros s H.
  - cbn. rewrite app_nil_r. reflexivity.
  - cbn [forallb] in H. apply andb_true_iff in H. destruct H as [Ha H].
    apply negb_true_iff in Ha.
    rewrite sys_run_cons, (IH _ H), (sys_step_delivered env a s Ha).
    cbn [sys_puts]. rewrite app_nil_r, <- app_assoc. reflexivity.
Qed.

(** X11: between two clicks on Stop the hand-over is first in, first out:
    whatever the order of worker steps and timer runs, the log followed by
    the queue grows by exactly the messages the workers put, in the order
    they put them; after one more run of the timer all of them are in the
    log and the queue is empty. *)
Theorem queue_hands_over_in_order
    (env : environ) (acts : list action) (s : system) :
  forallb (fun a => negb (is_stop_click a)) acts = true ->
  delivered (sys_run env acts s) = delivered s ++ sys_puts env acts s
  /\ log_area (app (sys_run env (acts ++ [ Timer ]) s)) =
       log_area (app s) ++ message_queue (app s) ++ sys_puts env acts s
  /\ message_queue (app (sys_run env (acts ++ [ Timer ]) s)) = [].
Proof.
  intros H. split; [ exact (sys_run_delivered env acts s H) | ].
  rewrite sys_run_app. cbn.
  pose proof (sys_run_delivered env acts s H) as Hd. unfold delivered in Hd.
  rewrite Hd, app_assoc. split; reflexivity.
Qed.

Lemma queue_hands_over_in_order_witness :
  log_area
    (app (sys_run full_env
            ([ ClickStart; Work 0 quiet; Timer; Work 0 quiet; Work 0 quiet;
               Work 0 quiet; Work 0 quiet;
               Work 0 (arriving [ post1 ] [ reply1 ]); Work 0 quiet ]
             ++ [ Timer ]) init)) =
  log_area (app init) ++ message_queue (app init)
  ++ sys_puts full_env
       [ ClickStart; Work 0 quiet; Timer; Work 0 quiet; Work 0 quiet;
         Work 0 quiet; Work 0 quiet;
         Work 0 (arriving [ post1 ] [ reply1 ]); Work 0 quiet ] init.
Proof.
  apply (queue_hands_over_in_order full_env
           [ ClickStart; Work 0 quiet; Timer; Work 0 quiet; Work 0 quiet;
             Work 0 quiet; Work 0 quiet;
             Work 0 (arriving [ post1 ] [ reply1 ]); Work 0 quiet ] init).
  reflexivity.
Defined.

(** ** The App: threads that are left behind *)

Lemma cycles_leave_threads (env : environ) (n : nat) :
  forall s : system,
    start_button (app s) = NORMAL ->
    running (app s) = false ->
    threads (sys_run env (start_stop_cycles n) s) =
      threads s ++ repeat WStart n
    /\ running (app (sys_run env (start_stop_cycles n) s)) = false.
Proof.
  induction n as [ | n IH ]; intros s Hb Hr.
  - cbn. rewrite app_nil_r. split; [ reflexivity | exact Hr ].
  - cbn [start_stop_cycles]. rewrite !sys_run_cons.
    cbn [sys_step]. rewrite Hb. cbn [start_monitoring app stop_button].
    destruct (IH (stop_monitoring (start_monitoring s)) eq_refl eq_refl)
      as [Ht Hrun].
    cbn [stop_monitoring start_monitoring app threads] in *.
    split; [ | exact Hrun ].
    rewrite Ht, <- app_assoc. reflexivity.
Qed.

Lemma waiting_step (env : environ) (w : wstate) :
  waiting env w -> waiting env (snd (worker_step env false quiet w)).
Proof.
  intros [k ->]. exists (k + 1)%nat.
  rewrite repeat_app, work_app. cbn [snd repeat].
  rewrite work_cons. reflexivity.
Qed.

Lemma waiting_alive (env : environ) (w : wstate) :
  waiting env w -> alive w = true.
Proof. intros [k ->]. apply (waiting_worker env k). Qed.

Lemma replace_nth_Forall {A : Type} (P : A -> Prop) (x : A) (l : list A) :
  forall i : nat, P x -> Forall P l -> Forall P (replace_nth i x l).
Proof.
  induction l as [ | y l IH ]; intros i Hx Hl; [ destruct i; constructor | ].
  inversion Hl; subst.
  destruct i; cbn; constructor; auto.
Qed.

Lemma replace_nth_length {A : Type} (x : A) (l : list A) :
  forall i : nat, List.length (replace_nth i x l) = List.length l.
Proof.
  induction l as [ | y l IH ]; intros i; destruct i; cbn; auto.
Qed.

Lemma quiet_work_keeps_waiting (env : environ) (a : action) (s : system) :
  quiet_work a ->
  running (app s) = false ->
  Forall (waiting env) (threads s) ->
  running (app (sys_step env a s)) = false
  /\ Forall (waiting env) (threads (sys_step env a s))
  /\ List.length (threads (sys_step env a s)) = List.length (threads s).
Proof.
  intros Ha Hr Hw.
  destruct a as [ | | | i t ]; cbn in Ha; try contradiction.
  - cbn. repeat split; assumption.
  - subst t. cbn [sys_step].
    destruct (nth_error (threads s) i) as [ w | ] eqn:E;
      [ | repeat split; assumption ].
    assert (Hwi : waiting env w).
    { rewrite Forall_forall in Hw. apply Hw.
      apply nth_error_In with (n := i). exact E. }
    pose proof (waiting_step env w Hwi) as Hstep. rewrite Hr.
    destruct (worker_step env false quiet w) as [evs w'].
    cbn [snd] in Hstep. cbn [app threads enqueue running].
    split; [ exact Hr | ].
    split; [ apply replace_nth_Forall; assumption
           | apply replace_nth_length ].
Qed.

Lemma quiet_run_keeps_waiting (env : environ) (acts : list action) :
  forall s : system,
    Forall quiet_work acts ->
    running (app s) = false ->
    Forall (waiting env) (threads s) ->
    Forall (waiting env) (threads (sys_run env acts s))
    /\ List.length (threads (sys_run env acts s)) = List.length (threads s).
Proof.
  induction acts as [ | a acts IH ]; intros s Ha Hr Hw.
  - split; [ exact Hw | reflexivity ].
  - inversion Ha; subst. rewrite sys_run_cons.
    destruct (quiet_work_keeps_waiting env a s H1 Hr Hw) as (Hr1 & Hw1 & Hl1).
    destruct (IH _ H2 Hr1 Hw1) as [Hw2 Hl2].
    split; [ exact Hw2 | congruence ].
Qed.

Lemma all_alive {env : environ} (l : list wstate) :
  Forall (waiting env) l -> filter alive l = l.
Proof.
  induction 1 as [ | w l Hw Hl IH ]; [ reflexivity | ].
  cbn. rewrite (waiting_alive env w Hw), IH. reflexivity.
Qed.

(** X12: every round of Start and Stop leaves one more worker behind: after
    [n] rounds, and for as long as no item arrives and no call fails, all
    [n] workers are alive, however long they run. *)
Theorem stopped_workers_stay_alive
    (env : environ) (n : nat) (acts : list action) :
  Forall quiet_work acts ->
  live_workers (sys_run env (start_stop_cycles n ++ acts) init) = n.
Proof.
  intros Ha. rewrite sys_run_app.
  destruct (cycles_leave_threads env n init eq_refl eq_refl) as [Ht Hr].
  cbn [init threads app] in Ht.
  assert (Hw : Forall (waiting env)
                 (threads (sys_run env (start_stop_cycles n) init))).
  { rewrite Ht. apply Forall_forall. intros w Hin.
    apply repeat_spec in Hin. subst w. exists 0%nat. reflexivity. }
  destruct (quiet_run_keeps_waiting env acts _ Ha Hr Hw) as [Hw2 Hl2].
  unfold live_workers. rewrite (all_alive _ Hw2), Hl2, Ht.
  apply repeat_length.
Qed.

Lemma stopped_workers_stay_alive_witness :
  live_workers
    (sys_run full_env
       (start_stop_cycles 3
        ++ [ Work 0 quiet; Work 2 quiet; Work 0 quiet; Timer; Work 1 quiet;
             Work 0 quiet; Work 0 quiet; Work 0 quiet; Work 0 quiet;
             Work 0 quiet ]) init) = 3%nat.
Proof.
  apply (stopped_workers_stay_alive full_env 3).
  repeat constructor.
Defined.

(** X13: in every state the GUI can reach, exactly one of the two buttons
    is enabled: Stop while [self.running] is True, Start while it is
    False. *)
Theorem one_button_is_enabled (env : environ) (acts : list action) :
  let a := app (sys_run env acts init) in
  (running a = true /\ start_button a = DISABLED /\ stop_button a = NORMAL)
  \/ (running a = false /\ start_button a = NORMAL
      /\ stop_button a = DISABLED).
Proof.
  intros a.
  pose proof (sys_run_buttons env acts init eq_refl) as H. fold a in H.
  unfold buttons_follow_flag in H.
  destruct (running a), (start_button a), (stop_button a);
    try discriminate H; [ left | right ]; repeat split; reflexivity.
Qed.

(** ** The script block *)

Lemma append_assoc (a b c : string) :
  ((a ++ b) ++ c = a ++ (b ++ c))%string.
Proof.
  induction a as [ | ch a IH ]; [ reflexivity | ].
  cbn. rewrite IH. reflexivity.
Qed.

(** X14: the script and the GUI say the same about an item: the message
    the worker puts on the queue is the lines the script prints after its
    line of dashes, each followed by a newline; for an item that is neither
    a Submission nor a Comment the worker puts nothing and the script
    prints nothing. *)
Theorem gui_message_is_script_summary (x : item) :
  format_item x =
    match summary_lines x with
    | [] => None
    | _ :: lines =>
        Some (String.concat "" (map (fun l => (l ++ nl)%string) lines))
    end
  /\ (summary_lines x = [] \/ hd "" (summary_lines x) = str_times "-" 40).
Proof.
  destruct x as [ d t p | d b p | ]; cbn [format_item summary_lines hd].
  - split; [ | right; reflexivity ].
    cbn [map String.concat]. rewrite !append_assoc. reflexivity.
  - split; [ | right; reflexivity ].
    cbn [map String.concat]. rewrite !append_assoc. reflexivity.
  - split; [ reflexivity | left; reflexivity ].
Qed.

Lemma printed_app (a b : list output) :
  printed (a ++ b) = printed a ++ printed b.
Proof. apply flat_map_app. Qed.

Lemma effects_app (a b : list output) :
  effects (a ++ b) = effects a ++ effects b.
Proof. apply flat_map_app. Qed.

Lemma printed_effects (evs : list event) : printed (map Effect evs) = [].
Proof. induction evs; auto. Qed.

Lemma effects_effects (evs : list event) : effects (map Effect evs) = evs.
Proof.
  induction evs as [ | ev evs IH ]; [ reflexivity | ].
  cbn. f_equal. exact IH.
Qed.

Lemma printed_prints (ls : list string) : printed (map Print ls) = ls.
Proof.
  induction ls as [ | l ls IH ]; [ reflexivity | ].
  cbn. f_equal. exact IH.
Qed.

Lemma effects_prints (ls : list string) : effects (map Print ls) = [].
Proof. induction ls; auto. Qed.

Lemma script_except_quiet (e : exn) :
  printed (fst (script_except e)) = []
  /\ yielded (effects (fst (script_except e))) = [].
Proof.
  unfold script_except.
  destruct (isinstance e ValueError); [ split; reflexivity | ].
  destruct (isinstance e RuntimeError); [ split; reflexivity | ].
  destruct (isinstance e KeyboardInterrupt); [ split; reflexivity | ].
  destruct (isinstance e Exception); split; reflexivity.
Qed.

Lemma script_step_prints (env : environ) (t : tick) (s : sstate) :
  printed (fst (script_step env t s)) =
    flat_map summary_lines (yielded (effects (fst (script_step env t s)))).
Proof.
  destruct s as [ | t0 | g | o ]; cbn [script_step].
  - reflexivity.
  - pose proof (initialize_reddit_internal env t0 t) as Hi.
    destruct (initialize_reddit env t0 t) as [evs [ reddit | e ]];
      cbn [fst snd] in *.
    + rewrite printed_effects, effects_effects, (internal_no_yielded _ Hi).
      reflexivity.
    + destruct (script_except_quiet e) as [H1 H2].
      rewrite printed_app, effects_app, yielded_app, printed_effects,
        effects_effects, (internal_no_yielded _ Hi), H1, H2.
      reflexivity.
  - pose proof (gen_step_shape t g) as Hg.
    destruct (gen_step t g) as [[evs sig] g']. cbn [fst snd] in Hg.
    destruct sig as [ | x | e ]; cbn [fst snd].
    + rewrite printed_effects, effects_effects, (internal_no_yielded _ Hg).
      reflexivity.
    + destruct Hg as (pre & src & -> & Hpre).
      rewrite printed_app, effects_app, printed_effects, printed_prints,
        effects_effects, effects_prints, app_nil_r, yielded_app,
        (internal_no_yielded _ Hpre).
      cbn. rewrite app_nil_r. reflexivity.
    + destruct (script_except_quiet e) as [H1 H2].
      rewrite printed_app, effects_app, yielded_app, printed_effects,
        effects_effects, (internal_no_yielded _ Hg), H1, H2.
      reflexivity.
  - reflexivity.
Qed.

Lemma script_run_cons (env : environ) (t : tick) (ts : list tick)
    (s : sstate) :
  script_run env (t :: ts) s =
    (fst (script_step env t s)
     ++ fst (script_run env ts (snd (script_step env t s))),
     snd (script_run env ts (snd (script_step env t s)))).
Proof.
  cbn [script_run]. destruct (script_step env t s) as [out s'].
  cbn [fst snd]. destruct (script_run env ts s'); reflexivity.
Qed.

Lemma script_run_prints (env : environ) (ts : list tick) :
  forall s : sstate,
    printed (fst (script_run env ts s)) =
      flat_map summary_lines (yielded (effects (fst (script_run env ts s)))).
Proof.
  induction ts as [ | t ts IH ]; intros s; [ reflexivity | ].
  rewrite script_run_cons. cbn [fst].
  rewrite printed_app, effects_app, yielded_app, flat_map_app,
    script_step_prints, IH.
  reflexivity.
Qed.

(** X15: the script prints the summary of every item the generator yields,
    in the order of the yields, and prints nothing else. *)
Theorem script_prints_every_item (env : environ) (ts : list tick) :
  printed (fst (script_run env ts SStart)) =
    flat_map summary_lines
      (yielded (effects (fst (script_run env ts SStart)))).
Proof. apply (script_run_prints env ts SStart). Qed.
